(** * go-qrcode-example: the QR code handler and its watermark compositor

    A shallow embedding of [handlers.HandleRequest], [utils.UploadFile] and
    of the [qrcode] package methods ([Generate], [GenerateWithWatermark],
    [resizeWatermark], [addWatermark]) as listed in the repository, together
    with the parts of Go's [strconv], [image], [image/draw] and of
    [github.com/nfnt/resize] that these functions call.

    Go values are modelled as follows: [int] and [uint] as [Z] (pixel
    dimensions stay far below the 64-bit wrap point), [uint8] and [uint32]
    arithmetic with the wrap-around written out, [[]byte] as [list Z],
    [float64] as the IEEE 754 binary64 values of [SpecFloat], a Go
    [(value, error)] result as a pair whose second component is an
    [option]. *)

From Stdlib Require Import ZArith List String Ascii Bool Lia.
From Stdlib Require Import Floats.SpecFloat.
From stdpp Require Import base option list.

Local Open Scope Z_scope.

Abbreviation bytes := (list Z).

(** ** Errors *)

(** Go error values.  [ErrMissingFile] is the sentinel [http.ErrMissingFile];
    [ErrorString] is what [errors.New] and [fmt.Errorf] without [%w] build;
    [WrapError] is an error whose [Unwrap] yields another one. *)
Inductive error : Type :=
| ErrMissingFile
| ErrorString (msg : string)
| WrapError (msg : string) (inner : error).

(** [err.Error()]. *)
Definition Error (e : error) : string :=
  match e with
  | ErrMissingFile => "http: no such file"
  | ErrorString msg => msg
  | WrapError msg _ => msg
  end.

(** [errors.Is(err, http.ErrMissingFile)]: identity with the sentinel along
    the [Unwrap] chain. *)
Fixpoint errors_Is_ErrMissingFile (e : error) : bool :=
  match e with
  | ErrMissingFile => true
  | ErrorString _ => false
  | WrapError _ inner => errors_Is_ErrMissingFile inner
  end.

(** [fmt.Errorf(prefix + "%v", err)]. *)
Definition Errorf (prefix : string) (e : error) : error :=
  ErrorString (prefix ++ Error e).

(** [fmt.Errorf(text, err)] where [text] has no verb: the operand is
    reported as an extra argument. *)
Definition Errorf_extra (text : string) (e : error) : error :=
  ErrorString (text ++ "%!(EXTRA *errors.errorString=" ++ Error e ++ ")").

(** ** strconv.Atoi *)

Inductive NumError : Type := ErrSyntax | ErrRange.

Definition is_digit (c : ascii) : bool :=
  let n := Z.of_nat (nat_of_ascii c) in (48 <=? n) && (n <=? 57).

Definition digit_val (c : ascii) : Z := Z.of_nat (nat_of_ascii c) - 48.

(** The digit loop of [strconv.ParseUint(s, 10, 64)]: a character that is
    no digit is a syntax error; a value that leaves the 64 bits ends the loop
    at once with a range error, whatever follows. *)
Fixpoint parse_digits (s : string) (n : Z) : Z * option NumError :=
  match s with
  | EmptyString => (n, None)
  | String ch rest =>
      if is_digit ch then
        if 2 ^ 64 / 10 + 1 <=? n then (2 ^ 64 - 1, Some ErrRange)
        else
          let n1 := n * 10 + digit_val ch in
          if 2 ^ 64 - 1 <? n1 then (2 ^ 64 - 1, Some ErrRange)
          else parse_digits rest n1
      else (0, Some ErrSyntax)
  end.

Definition is_sign (c : ascii) : bool :=
  Ascii.eqb c "-" || Ascii.eqb c "+".

(** [strconv.Atoi] on a 64-bit platform: an optional sign, then one or more
    decimal digits; a value outside the range of [int] is a range error with
    the nearest bound as the value.  The fast path of the library (short
    strings) and its slow path ([ParseInt]) agree on every string. *)
Definition Atoi (s : string) : Z * option NumError :=
  match s with
  | EmptyString => (0, Some ErrSyntax)
  | String c0 tail =>
      let digits := if is_sign c0 then tail else s in
      match digits with
      | EmptyString => (0, Some ErrSyntax)
      | _ =>
          match parse_digits digits 0 with
          | (_, Some ErrSyntax) => (0, Some ErrSyntax)
          | (un, _) =>
              let neg := Ascii.eqb c0 "-" in
              if negb neg && (2 ^ 63 <=? un) then (2 ^ 63 - 1, Some ErrRange)
              else if neg && (2 ^ 63 <? un) then (- 2 ^ 63, Some ErrRange)
              else (if neg then - un else un, None)
          end
      end
  end.

(** ** Package image: points and rectangles *)

Record Point : Type := Pt { X : Z; Y : Z }.

Record Rectangle : Type := mkRect { Min : Point; Max : Point }.

Definition ZP : Point := Pt 0 0.
Definition ZR : Rectangle := mkRect ZP ZP.

Definition Point_Add (p q : Point) : Point := Pt (X p + X q) (Y p + Y q).
Definition Point_Sub (p q : Point) : Point := Pt (X p - X q) (Y p - Y q).

Definition Dx (r : Rectangle) : Z := X (Max r) - X (Min r).
Definition Dy (r : Rectangle) : Z := Y (Max r) - Y (Min r).

Definition Rect_Add (r : Rectangle) (p : Point) : Rectangle :=
  mkRect (Point_Add (Min r) p) (Point_Add (Max r) p).

Definition Rect_Empty (r : Rectangle) : bool :=
  (X (Max r) <=? X (Min r)) || (Y (Max r) <=? Y (Min r)).

Definition Rect_Intersect (r s : Rectangle) : Rectangle :=
  let minx := if X (Min r) <? X (Min s) then X (Min s) else X (Min r) in
  let miny := if Y (Min r) <? Y (Min s) then Y (Min s) else Y (Min r) in
  let maxx := if X (Max s) <? X (Max r) then X (Max s) else X (Max r) in
  let maxy := if Y (Max s) <? Y (Max r) then Y (Max s) else Y (Max r) in
  let r' := mkRect (Pt minx miny) (Pt maxx maxy) in
  if Rect_Empty r' then ZR else r'.

(** [p.In(r)]. *)
Definition Point_In (p : Point) (r : Rectangle) : bool :=
  (X (Min r) <=? X p) && (X p <? X (Max r)) &&
  (Y (Min r) <=? Y p) && (Y p <? Y (Max r)).

(** ** Package image: pixel buffers and images *)

Definition u8 (x : Z) : Z := x mod 256.
Definition u32 (x : Z) : Z := x mod 2 ^ 32.

(** A pixel of an RGBA or NRGBA buffer: its four bytes. *)
Record Pixel : Type := Px { pR : Z; pG : Z; pB : Z; pA : Z }.

(** A colour as [color.Color.RGBA()] returns it: alpha-premultiplied, 16 bits
    per channel. *)
Record Color : Type := Col { cR : Z; cG : Z; cB : Z; cA : Z }.

(** The fields shared by [image.RGBA], [image.NRGBA] and [image.Gray]. *)
Record PixBuf : Type := mkPixBuf { Pix : bytes; Stride : Z; Rect : Rectangle }.

(** The image types [png.Decode] and [resize.Resize] hand to this program.
    [image.RGBA], [image.NRGBA] and [image.Gray] are the ones [draw.Draw]
    reads through their buffers; every other type ([image.Paletted],
    [image.Gray16], [image.RGBA64], [image.NRGBA64]) is read through
    [At(x, y).RGBA()]. *)
Inductive Image : Type :=
| ImageRGBA (p : PixBuf)
| ImageNRGBA (p : PixBuf)
| ImageGray (p : PixBuf)
| ImageOther (bounds : Rectangle) (at_rgba : Z -> Z -> Color).

Definition Bounds (img : Image) : Rectangle :=
  match img with
  | ImageRGBA p | ImageNRGBA p | ImageGray p => Rect p
  | ImageOther b _ => b
  end.

(** [s[i]] on a slice: [None] stands for the index-out-of-range panic. *)
Definition index (s : bytes) (i : Z) : option Z :=
  if i <? 0 then None else s !! Z.to_nat i.

(** The four bytes [s[i : i+4 : i+4]]. *)
Definition read4 (s : bytes) (i : Z) : option Pixel :=
  match index s i, index s (i + 1), index s (i + 2), index s (i + 3) with
  | Some a, Some b, Some c, Some d => Some (Px a b c d)
  | _, _, _, _ => None
  end.

Definition write4 (s : bytes) (i : Z) (p : Pixel) : option bytes :=
  if (0 <=? i) && (i + 4 <=? Z.of_nat (length s)) then
    Some (<[Z.to_nat (i + 3) := pA p]>
            (<[Z.to_nat (i + 2) := pB p]>
               (<[Z.to_nat (i + 1) := pG p]>
                  (<[Z.to_nat i := pR p]> s))))
  else None.

(** [p.PixOffset(x, y)] for a buffer of [bpp] bytes per pixel. *)
Definition PixOffset (bpp : Z) (p : PixBuf) (x y : Z) : Z :=
  (y - Y (Min (Rect p))) * Stride p + (x - X (Min (Rect p))) * bpp.

(** [image.NewRGBA(r)]; [None] is its panic on negative dimensions. *)
Definition NewRGBA (r : Rectangle) : option PixBuf :=
  if (Dx r <? 0) || (Dy r <? 0) then None
  else Some (mkPixBuf (repeat 0 (Z.to_nat (4 * Dx r * Dy r))) (4 * Dx r) r).

(** ** Package image/draw *)

Inductive Op : Type := Over | Src.

Definition m16 : Z := 2 ^ 16 - 1.

(** One channel of [drawCopyOver] and [drawNRGBAOver]:
    [uint8((uint32(d)*a/m + s) >> 8)]. *)
Definition over_channel (d a s : Z) : Z :=
  u8 (Z.shiftr (u32 (u32 (d * a) / m16 + s)) 8).

(** [drawCopyOver]: an [image.RGBA] source pixel over a destination pixel. *)
Definition overRGBA (s d : Pixel) : Pixel :=
  let sr := u32 (pR s * 257) in
  let sg := u32 (pG s * 257) in
  let sb := u32 (pB s * 257) in
  let sa := u32 (pA s * 257) in
  let a := u32 (u32 (m16 - sa) * 257) in
  Px (over_channel (pR d) a sr) (over_channel (pG d) a sg)
     (over_channel (pB d) a sb) (over_channel (pA d) a sa).

(** [drawNRGBAOver]: the source pixel is premultiplied first. *)
Definition overNRGBA (s d : Pixel) : Pixel :=
  let sa := u32 (pA s * 257) in
  let sr := u32 (pR s * sa) / 255 in
  let sg := u32 (pG s * sa) / 255 in
  let sb := u32 (pB s * sa) / 255 in
  let a := u32 (u32 (m16 - sa) * 257) in
  Px (over_channel (pR d) a sr) (over_channel (pG d) a sg)
     (over_channel (pB d) a sb) (over_channel (pA d) a sa).

(** [drawNRGBASrc]. *)
Definition srcNRGBA (s : Pixel) : Pixel :=
  let sa := u32 (pA s * 257) in
  let sr := u32 (pR s * sa) / 255 in
  let sg := u32 (pG s * sa) / 255 in
  let sb := u32 (pB s * sa) / 255 in
  Px (u8 (Z.shiftr sr 8)) (u8 (Z.shiftr sg 8)) (u8 (Z.shiftr sb 8))
     (u8 (Z.shiftr sa 8)).

(** [drawGray]: a gray source is opaque under both operators. *)
Definition grayPixel (y : Z) : Pixel := Px y y y 255.

(** One channel of the generic [drawRGBA] under [Over], with a nil mask
    ([ma = m]): [uint8((d*a + s*ma) / m >> 8)]. *)
Definition generic_over_channel (d a s : Z) : Z :=
  u8 (Z.shiftr (u32 (u32 (d * a) + u32 (s * m16)) / m16) 8).

Definition overGeneric (s : Color) (d : Pixel) : Pixel :=
  let a := u32 (u32 (m16 - u32 (cA s * m16) / m16) * 257) in
  Px (generic_over_channel (pR d) a (cR s))
     (generic_over_channel (pG d) a (cG s))
     (generic_over_channel (pB d) a (cB s))
     (generic_over_channel (pA d) a (cA s)).

(** The generic [drawRGBA] under [Src]: [uint8(s * ma / m >> 8)]. *)
Definition srcGeneric (s : Color) : Pixel :=
  let ch v := u8 (Z.shiftr (u32 (v * m16) / m16) 8) in
  Px (ch (cR s)) (ch (cG s)) (ch (cB s)) (ch (cA s)).

(** The value one destination pixel receives from the source pixel at
    [(sx, sy)], by the path [DrawMask] selects for the source's type.
    [None] is an index-out-of-range panic on the source buffer. *)
Definition blendPixel (op : Op) (src : Image) (sx sy : Z) (d : Pixel)
  : option Pixel :=
  match src with
  | ImageRGBA p =>
      s ← read4 (Pix p) (PixOffset 4 p sx sy);
      Some (match op with Over => overRGBA s d | Src => s end)
  | ImageNRGBA p =>
      s ← read4 (Pix p) (PixOffset 4 p sx sy);
      Some (match op with Over => overNRGBA s d | Src => srcNRGBA s end)
  | ImageGray p =>
      y ← index (Pix p) (PixOffset 1 p sx sy);
      Some (grayPixel y)
  | ImageOther _ at_rgba =>
      Some (match op with
            | Over => overGeneric (at_rgba sx sy) d
            | Src => srcGeneric (at_rgba sx sy)
            end)
  end.

(** One iteration of the inner loop: destination pixel [(x, y)] from source
    pixel [(sx, sy)]. *)
Definition drawPixel (op : Op) (src : Image) (sx sy x y : Z) (dst : PixBuf)
  : option PixBuf :=
  let i := PixOffset 4 dst x y in
  d ← read4 (Pix dst) i;
  v ← blendPixel op src sx sy d;
  pix ← write4 (Pix dst) i v;
  Some (mkPixBuf pix (Stride dst) (Rect dst)).

(** [for i := from; i != from + n; i++ { body }]. *)
Fixpoint for_loop {S : Type} (n : nat) (from : Z) (body : Z -> S -> option S)
  (s : S) : option S :=
  match n with
  | O => Some s
  | Datatypes.S n' =>
      match body from s with
      | None => None
      | Some s' => for_loop n' (from + 1) body s'
      end
  end.

(** [clip]: the rectangle is cut down to the destination and to the
    translated source, and the source point moves along with its corner. *)
Definition clip (dst : PixBuf) (r : Rectangle) (src : Image) (sp : Point)
  : Rectangle * Point :=
  let orig := Min r in
  let r1 := Rect_Intersect r (Rect dst) in
  let r2 := Rect_Intersect r1 (Rect_Add (Bounds src) (Point_Sub orig sp)) in
  let dx := X (Min r2) - X orig in
  let dy := Y (Min r2) - Y orig in
  (r2, Pt (X sp + dx) (Y sp + dy)).

(** [draw.Draw(dst, r, src, sp, op)] for an [*image.RGBA] destination and a
    source that is a different object.  The rows and columns of the clipped
    rectangle are visited in ascending order; the library's descending
    variant exists for a source that aliases the destination. *)
Definition Draw (dst : PixBuf) (r : Rectangle) (src : Image) (sp : Point)
  (op : Op) : option PixBuf :=
  let '(r, sp) := clip dst r src sp in
  if Rect_Empty r then Some dst
  else
    for_loop (Z.to_nat (Dy r)) (Y (Min r))
      (fun y =>
         for_loop (Z.to_nat (Dx r)) (X (Min r))
           (fun x => drawPixel op src (X sp + (x - X (Min r)))
                       (Y sp + (y - Y (Min r))) x y))
      dst.

(** ** float64 *)

(** Go's [float64] is IEEE 754 binary64: 53 bits of precision, round to
    nearest even. *)
Definition float64 : Type := spec_float.

Definition f64_prec : Z := 53.
Definition f64_emax : Z := 1024.

(** [float64(n)] for an integer [n]. *)
Definition float64_of_int (n : Z) : float64 :=
  binary_normalize f64_prec f64_emax n 0 false.

Definition f64_mul : float64 -> float64 -> float64 := SFmul f64_prec f64_emax.
Definition f64_div : float64 -> float64 -> float64 := SFdiv f64_prec f64_emax.
Definition f64_add : float64 -> float64 -> float64 := SFadd f64_prec f64_emax.

(** The constants [0.25], [0.7] and [1.0] as binary64 values. *)
Definition f64_0_25 : float64 := S754_finite false 4503599627370496 (-54).
Definition f64_0_7 : float64 := S754_finite false 6305039478318694 (-53).
Definition f64_1 : float64 := S754_finite false 4503599627370496 (-52).

(** [uint(f)]: the fraction is discarded.  For a negative, infinite or NaN
    operand Go leaves the result to the implementation; those cases are
    given the value 0 here and no statement below relies on them. *)
Definition uint_of_float64 (f : float64) : Z :=
  match f with
  | S754_finite false m e =>
      if 0 <=? e then Z.pos m * 2 ^ e else Z.pos m / 2 ^ (- e)
  | _ => 0
  end.

(** ** github.com/nfnt/resize: how [Resize] sizes its result *)

Inductive InterpolationFunction : Type :=
| NearestNeighbor | Bilinear | Bicubic | MitchellNetravali | Lanczos2 | Lanczos3.

(** [calcFactors]. *)
Definition calcFactors (width height : Z) (oldWidth oldHeight : float64)
  : float64 * float64 :=
  if width =? 0 then
    if height =? 0 then (f64_1, f64_1)
    else
      let scaleY := f64_div oldHeight (float64_of_int height) in
      (scaleY, scaleY)
  else
    let scaleX := f64_div oldWidth (float64_of_int width) in
    if height =? 0 then (scaleX, scaleX)
    else (scaleX, f64_div oldHeight (float64_of_int height)).

(** [resize.Resize(width, height, img, interp)].  A zero [width] or [height]
    is derived from the other one and the source's aspect ratio; an image
    that already has the requested size, or that has no pixels, is returned
    as it is.  [resample] stands for the filtering pass that fills the new
    image. *)
Definition resize_Resize (resample : InterpolationFunction -> Z -> Z -> Image -> Image)
  (width height : Z) (img : Image) (interp : InterpolationFunction) : Image :=
  let oldWidth := float64_of_int (Dx (Bounds img)) in
  let oldHeight := float64_of_int (Dy (Bounds img)) in
  let '(scaleX, scaleY) := calcFactors width height oldWidth oldHeight in
  let width :=
    if width =? 0 then uint_of_float64 (f64_add f64_0_7 (f64_div oldWidth scaleX))
    else width in
  let height :=
    if height =? 0 then uint_of_float64 (f64_add f64_0_7 (f64_div oldHeight scaleY))
    else height in
  if (width =? Dx (Bounds img)) && (height =? Dy (Bounds img)) then img
  else if (Dx (Bounds img) <=? 0) || (Dy (Bounds img) <=? 0) then img
  else resample interp width height img.

(** ** The collaborators of the program *)

(** [qrcode.RecoveryLevel] of github.com/skip2/go-qrcode. *)
Inductive RecoveryLevel : Type := Low | Medium | High | Highest.

(** A [multipart.File]: the bytes a reader gets out of it, and the error (if
    any) that ends the reading instead of [io.EOF]. *)
Record File : Type := mkFile { file_data : bytes; file_err : option error }.

(** What the program's libraries compute on the data of one request.  The
    PNG codec, the QR encoder, the content sniffer and the resampling filter
    are taken as they are; [resample_Bounds] is the one fact about the filter
    that the library's code fixes: the new image is allocated with
    [image.Rect(0, 0, width, height)]. *)
Record Env : Type := mkEnv {
  qrcode_Encode : string -> RecoveryLevel -> Z -> bytes * option error;
  png_Decode : bytes -> option Image * option error;
  png_Encode : Image -> bytes;
  http_DetectContentType : bytes -> string;
  resample : InterpolationFunction -> Z -> Z -> Image -> Image;
  resample_Bounds : forall interp w h img,
    Bounds (resample interp w h img) = mkRect (Pt 0 0) (Pt w h)
}.

(** The library calls a run makes, in order, with their arguments. *)
Inductive Call : Type :=
| CallQrEncode (content : string) (size : Z)
| CallPngDecode (data : bytes)
| CallPngEncode (img : Image)
| CallResize (width height : Z) (img : Image)
| CallDraw (r : Rectangle) (src : Image) (op : Op)
| CallDetectContentType (data : bytes)
| CallIoCopy (file : option File).

(** ** net/http: the response writer and the request *)

Inductive json : Type :=
| JString (s : string)
| JObject (fields : list (string * string)).

(** What is written to the body: a JSON document from [json.Encoder.Encode]
    or raw bytes from [Write]. *)
Inductive Chunk : Type :=
| ChunkJson (v : json)
| ChunkBytes (data : bytes).

Record Response : Type := mkResponse {
  header : list (string * list string);
  status : option Z;
  body : list Chunk
}.

Definition empty_response : Response := mkResponse [] None [].

Fixpoint header_set (k v : string) (h : list (string * list string))
  : list (string * list string) :=
  match h with
  | [] => [(k, [v])]
  | (k', vs) :: h' =>
      if String.eqb k k' then (k, [v]) :: h' else (k', vs) :: header_set k v h'
  end.

Fixpoint header_add (k v : string) (h : list (string * list string))
  : list (string * list string) :=
  match h with
  | [] => [(k, [v])]
  | (k', vs) :: h' =>
      if String.eqb k k' then (k, vs ++ [v]) :: h' else (k', vs) :: header_add k v h'
  end.

(** The form of one request, as [FormValue] and [FormFile] present it. *)
Record Request : Type := mkRequest {
  FormValue : string -> string;
  FormFile : string -> option File * option error
}.

(** ** Runs *)

Record World : Type := mkWorld { calls : list Call; resp : Response }.

Inductive Outcome (A : Type) : Type :=
| Done (a : A)
| Panic.
Arguments Done {A} a.
Arguments Panic {A}.

(** A computation: it reads and extends the world, and either returns or
    panics. *)
Definition M (A : Type) : Type := World -> Outcome A * World.

Definition ret {A : Type} (a : A) : M A := fun w => (Done a, w).

Definition bind {A B : Type} (c : M A) (k : A -> M B) : M B :=
  fun w =>
    match c w with
    | (Done a, w') => k a w'
    | (Panic, w') => (Panic, w')
    end.

Definition panic {A : Type} : M A := fun w => (Panic, w).

Definition record (c : Call) : M unit :=
  fun w => (Done tt, mkWorld (calls w ++ [c]) (resp w)).

Definition modify_resp (f : Response -> Response) : M unit :=
  fun w => (Done tt, mkWorld (calls w) (f (resp w))).

Declare Scope go_scope.
Delimit Scope go_scope with go.
Notation "'let*' x ':=' c 'in' k" := (bind c (fun x => k))
  (at level 10, x pattern, c at level 100, k at level 200) : go_scope.
Notation "c ;; k" := (bind c (fun _ => k))
  (at level 100, right associativity) : go_scope.
Local Open Scope go_scope.

Definition Header_Set (k v : string) : M unit :=
  modify_resp (fun r => mkResponse (header_set k v (header r)) (status r) (body r)).

Definition Header_Add (k v : string) : M unit :=
  modify_resp (fun r => mkResponse (header_add k v (header r)) (status r) (body r)).

(** [writer.WriteHeader(code)]: the first status code stands. *)
Definition WriteHeader (code : Z) : M unit :=
  modify_resp (fun r =>
    mkResponse (header r)
      (match status r with None => Some code | Some c => Some c end) (body r)).

(** Writing to the body sends status 200 when none was sent before. *)
Definition write_chunk (c : Chunk) : M unit :=
  modify_resp (fun r =>
    mkResponse (header r)
      (match status r with None => Some 200 | Some c => Some c end)
      (body r ++ [c])).

(** [json.NewEncoder(writer).Encode(s)] for a Go string [s]. *)
Definition json_Encode_string (s : string) : M unit :=
  write_chunk (ChunkJson (JString s)).

Definition Write (data : bytes) : M unit := write_chunk (ChunkBytes data).

Section Program.
Variable env : Env.

(** *** Library calls, recorded *)

Definition call_qrcode_Encode (content : string) (level : RecoveryLevel)
  (size : Z) : M (bytes * option error) :=
  record (CallQrEncode content size) ;;
  ret (qrcode_Encode env content level size).

Definition call_png_Decode (data : bytes) : M (option Image * option error) :=
  record (CallPngDecode data) ;; ret (png_Decode env data).

Definition call_png_Encode (img : Image) : M bytes :=
  record (CallPngEncode img) ;; ret (png_Encode env img).

Definition call_Resize (width height : Z) (img : Image)
  (interp : InterpolationFunction) : M Image :=
  record (CallResize width height img) ;;
  ret (resize_Resize (resample env) width height img interp).

Definition call_DetectContentType (data : bytes) : M string :=
  record (CallDetectContentType data) ;; ret (http_DetectContentType env data).

(** [io.Copy(buf, file)] into an empty buffer: the bytes copied and the
    error.  A nil [file] is a nil interface, and reading from it panics. *)
Definition call_io_Copy (file : option File) : M (bytes * option error) :=
  record (CallIoCopy file) ;;
  match file with
  | None => panic
  | Some f => ret (file_data f, file_err f)
  end.

Definition call_Draw (dst : PixBuf) (r : Rectangle) (src : Image) (sp : Point)
  (op : Op) : M PixBuf :=
  record (CallDraw r src op) ;;
  match Draw dst r src sp op with
  | None => panic
  | Some dst' => ret dst'
  end.

(** *** utils.UploadFile *)

Definition UploadFile (file : option File) : M (bytes * option error) :=
  let* (buf, err) := call_io_Copy file in
  match err with
  | Some e => ret ([], Some (Errorf "could not upload file. " e))
  | None => ret (buf, None)
  end.

(** *** Package qrcode *)

Record SimpleQRCode : Type := mkSimpleQRCode { Content : string; Size : Z }.

Definition Generate (code : SimpleQRCode) : M (bytes * option error) :=
  let* (qrCode, err) := call_qrcode_Encode (Content code) Medium (Size code) in
  match err with
  | Some e => ret ([], Some (Errorf "could not generate a QR code: " e))
  | None => ret (qrCode, None)
  end.

Definition resizeWatermark (watermark : bytes) (width : Z)
  : M (bytes * option error) :=
  let* (decodedImage, err) := call_png_Decode watermark in
  match err, decodedImage with
  | Some e, _ => ret ([], Some (Errorf "could not decode watermark image: " e))
  | None, None => panic
  | None, Some decodedImage =>
      let* m := call_Resize width 0 decodedImage Lanczos3 in
      let* resized := call_png_Encode m in
      ret (resized, None)
  end.

(** [uint(float64(w) * 0.25)]. *)
Definition watermarkWidth (w : Z) : Z :=
  uint_of_float64 (f64_mul (float64_of_int w) f64_0_25).

(** The offset at which [addWatermark] places the overlay. *)
Definition watermarkOffset (qrCodeData watermarkImage : Image) : Point :=
  let halfQrCodeWidth := Z.quot (Dx (Bounds qrCodeData)) 2 in
  let halfWatermarkWidth := Z.quot (Dx (Bounds watermarkImage)) 2 in
  Pt (halfQrCodeWidth - halfWatermarkWidth) (halfQrCodeWidth - halfWatermarkWidth).

Definition addWatermark (code : SimpleQRCode) (qrCode watermarkData : bytes)
  : M (bytes * option error) :=
  let* (qrCodeData, err) := call_png_Decode qrCode in
  match err, qrCodeData with
  | Some e, _ => ret ([], Some (Errorf "could not decode QR code: " e))
  | None, None => panic
  | None, Some qrCodeData =>
      let watermarkWidth := watermarkWidth (Dx (Bounds qrCodeData)) in
      let* (watermark, err) := resizeWatermark watermarkData watermarkWidth in
      match err with
      | Some e =>
          ret ([], Some (Errorf_extra "Could not resize the watermark image." e))
      | None =>
          let* (watermarkImage, err) := call_png_Decode watermark in
          match err, watermarkImage with
          | Some e, _ => ret ([], Some (Errorf "could not decode watermark: " e))
          | None, None => panic
          | None, Some watermarkImage =>
              let offset := watermarkOffset qrCodeData watermarkImage in
              let watermarkImageBounds := Bounds qrCodeData in
              match NewRGBA watermarkImageBounds with
              | None => panic
              | Some m =>
                  let* m := call_Draw m watermarkImageBounds qrCodeData ZP Src in
                  let* m := call_Draw m (Rect_Add (Bounds watermarkImage) offset)
                         watermarkImage ZP Over in
                  let* watermarkedQRCode := call_png_Encode (ImageRGBA m) in
                  ret (watermarkedQRCode, None)
              end
          end
      end
  end.

Definition GenerateWithWatermark (code : SimpleQRCode) (watermark : bytes)
  : M (bytes * option error) :=
  let* (qrCode, err) := Generate code in
  match err with
  | Some e => ret ([], Some e)
  | None =>
      let* (qrCode, err) := addWatermark code qrCode watermark in
      match err with
      | Some e => ret ([], Some (Errorf "could not add watermark to QR code: " e))
      | None => ret (qrCode, None)
      end
  end.

(** *** handlers.HandleRequest *)

(** [fmt.Sprintf("Provided watermark image is a %s not a PNG. %v.", err,
    contentType)]. *)
Definition not_a_png_message (err : option error) (contentType : string)
  : string :=
  "Provided watermark image is a "
    ++ match err with Some e => Error e | None => "%!s(<nil>)" end
    ++ " not a PNG. " ++ contentType ++ ".".

Definition is_nil {A : Type} (o : option A) : bool :=
  match o with None => true | Some _ => false end.

Definition HandleRequest (request : Request) : M unit :=
  let size := FormValue request "size" in
  let content := FormValue request "content" in
  Header_Set "Content-Type" "application/json" ;;
  if String.eqb content EmptyString then
    WriteHeader 400 ;;
    json_Encode_string "Could not determine the desired QR code content."
  else
    let '(qrCodeSize, err) := Atoi size in
    if negb (is_nil err) || String.eqb size EmptyString then
      WriteHeader 400 ;;
      json_Encode_string "Could not determine the desired QR code size."
    else
      let qrCode := mkSimpleQRCode content qrCodeSize in
      let '(watermarkFile, err) := FormFile request "watermark" in
      if negb (is_nil err)
         && match err with Some e => errors_Is_ErrMissingFile e | None => false end
      then
        let* (codeData, err) := Generate qrCode in
        match err with
        | Some e =>
            WriteHeader 400 ;;
            json_Encode_string ("Could not generate QR code. " ++ Error e)
        | None =>
            Header_Add "Content-Type" "image/png" ;;
            Write codeData
        end
      else
        let* (watermark, err) := UploadFile watermarkFile in
        if negb (is_nil err) then
          WriteHeader 400 ;;
          json_Encode_string
            ("Could not upload the watermark image."
               ++ match err with Some e => Error e | None => EmptyString end)
        else
          let* contentType := call_DetectContentType watermark in
          if negb (is_nil err) then
            WriteHeader 400 ;;
            json_Encode_string (not_a_png_message err contentType)
          else
            let* (codeData, err) := GenerateWithWatermark qrCode watermark in
            match err with
            | Some e =>
                WriteHeader 400 ;;
                json_Encode_string
                  ("Could not generate QR code with the watermark image. "
                     ++ Error e)
            | None =>
                Header_Set "Content-Type" "image/png" ;;
                Write codeData
            end.

End Program.

(** A run of the handler on a fresh response writer. *)
Definition serve (env : Env) (request : Request) : Outcome unit * World :=
  HandleRequest env request (mkWorld [] empty_response).

(** ** A small instance of the collaborators

    The program can be run on it: its encoded images are the byte 137
    followed by a width and a height, and every decoded image is opaque
    black. *)

Definition stub_image (w h : Z) : Image :=
  ImageOther (mkRect (Pt 0 0) (Pt w h)) (fun _ _ => Col 0 0 0 65535).

Definition stub_decode (data : bytes) : option Image * option error :=
  match data with
  | [137; w; h] => (Some (stub_image w h), None)
  | _ => (None, Some (ErrorString "png: invalid format: not a PNG file"))
  end.

Definition stub_sniff (data : bytes) : string :=
  match data with
  | 137 :: _ => "image/png"
  | 255 :: 216 :: 255 :: _ => "image/jpeg"
  | _ => "application/octet-stream"
  end.

Definition stubEnv : Env :=
  {| qrcode_Encode := fun _ _ size => ([137; size; size], None);
     png_Decode := stub_decode;
     png_Encode := fun img => [137; Dx (Bounds img); Dy (Bounds img)];
     http_DetectContentType := stub_sniff;
     resample := fun _ w h _ => stub_image w h;
     resample_Bounds := fun _ _ _ _ => eq_refl |}.

(** A form with the given [size] and [content] fields and the given result
    of [FormFile("watermark")]. *)
Definition form (size content : string) (watermark : option File * option error)
  : Request :=
  {| FormValue := fun k =>
       if String.eqb k "size" then size
       else if String.eqb k "content" then content else EmptyString;
     FormFile := fun k =>
       if String.eqb k "watermark" then watermark else (None, Some ErrMissingFile) |}.

(** The first bytes of a JPEG file. *)
Definition jpeg_blob : bytes := [255; 216; 255; 224; 0; 16; 74; 70; 73; 70].

(** The response header after the handler's first statement. *)
Definition json_header : list (string * list string) :=
  [("Content-Type"%string, ["application/json"%string])].

(** ** Notions used to state the properties of [Draw] *)

(** The layout [image.NewRGBA] and [png.Decode] give a buffer of [bpp] bytes
    per pixel: rows follow each other without padding. *)
Definition wf_buf (bpp : Z) (p : PixBuf) : Prop :=
  0 <= Dx (Rect p) /\ 0 <= Dy (Rect p) /\
  Stride p = bpp * Dx (Rect p) /\
  Z.of_nat (length (Pix p)) = Stride p * Dy (Rect p).

Definition wf_image (img : Image) : Prop :=
  match img with
  | ImageRGBA p | ImageNRGBA p => wf_buf 4 p
  | ImageGray p => wf_buf 1 p
  | ImageOther _ _ => True
  end.

(** The pixel of an RGBA buffer at [(x, y)]. *)
Definition pixelAt (p : PixBuf) (x y : Z) : option Pixel :=
  read4 (Pix p) (PixOffset 4 p x y).

(** The source point [draw.Draw] pairs with the destination point [(x, y)]:
    [sp] is aligned with [r.Min]. *)
Definition sourcePoint (r : Rectangle) (sp : Point) (x y : Z) : Point :=
  Pt (X sp + (x - X (Min r))) (Y sp + (y - Y (Min r))).

(** The destination points [draw.Draw] writes: those of [r] that lie on the
    destination and whose source point lies on the source. *)
Definition covered (dst : PixBuf) (r : Rectangle) (src : Image) (sp : Point)
  (x y : Z) : bool :=
  Point_In (Pt x y) r && Point_In (Pt x y) (Rect dst)
  && Point_In (sourcePoint r sp x y) (Bounds src).

Definition same_geom (p p' : PixBuf) : Prop :=
  Rect p' = Rect p /\ Stride p' = Stride p /\ length (Pix p') = length (Pix p).

(** [color.RGBA.RGBA()]: an 8-bit premultiplied pixel as a 16-bit colour. *)
Definition RGBA_of_pixel (p : Pixel) : Color :=
  Col (pR p * 257) (pG p * 257) (pB p * 257) (pA p * 257).

(** [color.NRGBA.RGBA()]: each channel is widened, then scaled by alpha. *)
Definition RGBA_of_NRGBA (p : Pixel) : Color :=
  Col (pR p * 257 * pA p / 255) (pG p * 257 * pA p / 255)
      (pB p * 257 * pA p / 255) (pA p * 257).

(** [color.RGBAModel.Convert(c)]: the high byte of every channel. *)
Definition RGBAModel_Convert (c : Color) : Pixel :=
  Px (u8 (Z.shiftr (cR c) 8)) (u8 (Z.shiftr (cG c) 8))
     (u8 (Z.shiftr (cB c) 8)) (u8 (Z.shiftr (cA c) 8)).

(** [img.At(x, y).RGBA()] for a point inside the image's bounds. *)
Definition colorAt (img : Image) (x y : Z) : option Color :=
  match img with
  | ImageRGBA p => RGBA_of_pixel <$> read4 (Pix p) (PixOffset 4 p x y)
  | ImageNRGBA p => RGBA_of_NRGBA <$> read4 (Pix p) (PixOffset 4 p x y)
  | ImageGray p =>
      (fun v => Col (v * 257) (v * 257) (v * 257) 65535)
        <$> index (Pix p) (PixOffset 1 p x y)
  | ImageOther _ at_rgba => Some (at_rgba x y)
  end.

(** A valid alpha-premultiplied 16-bit colour: no channel exceeds alpha. *)
Definition color_ok (c : Color) : Prop :=
  0 <= cR c <= cA c /\ 0 <= cG c <= cA c /\ 0 <= cB c <= cA c /\ cA c <= 65535.

Definition pixel_ok (p : Pixel) : Prop :=
  0 <= pR p < 256 /\ 0 <= pG p < 256 /\ 0 <= pB p < 256 /\ 0 <= pA p < 256.

(** A one pixel overlay of 16 bits per channel, opaque, and a one pixel
    gray canvas. *)
Definition deep_overlay : Image :=
  ImageOther (mkRect (Pt 0 0) (Pt 1 1)) (fun _ _ => Col 4660 0 0 65535).

Definition gray_canvas : PixBuf :=
  mkPixBuf [128; 128; 128; 255] 4 (mkRect (Pt 0 0) (Pt 1 1)).

(** A one pixel opaque red overlay of 8 bits per channel, and an empty
    canvas of two by two pixels. *)
Definition red_overlay : Image :=
  ImageRGBA (mkPixBuf [255; 0; 0; 255] 4 (mkRect (Pt 0 0) (Pt 1 1))).

Definition small_canvas : PixBuf :=
  mkPixBuf (repeat 0 16) 8 (mkRect (Pt 0 0) (Pt 2 2)).


(** A colour whose channels are 8-bit values widened to 16 bits, as every
    image of 8 bits per channel yields them. *)
Definition eight_bit (c : Color) : Prop :=
  cR c mod 257 = 0 /\ cG c mod 257 = 0 /\ cB c mod 257 = 0.

(** A one pixel opaque red overlay with a palette of 8 bits per channel, read
    through [At], and a one pixel overlay of alpha zero. *)
Definition palette_overlay : Image :=
  ImageOther (mkRect (Pt 0 0) (Pt 1 1)) (fun _ _ => Col 65535 0 0 65535).

Definition clear_overlay : Image :=
  ImageNRGBA (mkPixBuf [9; 9; 9; 0] 4 (mkRect (Pt 0 0) (Pt 1 1))).

(** ** A second instance of the collaborators, with gray levels

    Its images are of one gray level each; an encoded image is the byte 138
    followed by width, height and level.  As [png.Encode] does, the encoder
    writes nothing for an image without pixels, and the decoder reads
    nothing out of no bytes. *)

Definition flat_image (w h v : Z) : Image :=
  ImageOther (mkRect (Pt 0 0) (Pt w h))
    (fun _ _ => Col (v * 257) (v * 257) (v * 257) 65535).

Definition flat_level (img : Image) : Z :=
  match colorAt img 0 0 with
  | Some c => cR c / 257
  | None => 0
  end.

Definition flat_encode (img : Image) : bytes :=
  if (Dx (Bounds img) <=? 0) || (Dy (Bounds img) <=? 0) then []
  else [138; Dx (Bounds img); Dy (Bounds img); flat_level img].

Definition flat_decode (data : bytes) : option Image * option error :=
  match data with
  | [138; w; h; v] => (Some (flat_image w h v), None)
  | [] => (None, Some (ErrorString "unexpected EOF"))
  | _ => (None, Some (ErrorString "png: invalid format: not a PNG file"))
  end.

Definition flatEnv : Env :=
  {| qrcode_Encode := fun _ _ size => ([138; size; size; 128], None);
     png_Decode := flat_decode;
     png_Encode := flat_encode;
     http_DetectContentType := stub_sniff;
     resample := fun _ w h img => flat_image w h (flat_level img);
     resample_Bounds := fun _ _ _ _ => eq_refl |}.

(** ** Notions used to state the properties of whole runs *)

(** The [Content-Type] header with the given values. *)
Definition content_type (values : list string) : list (string * list string) :=
  [("Content-Type"%string, values)].

(** What [png.Decode] guarantees: it returns an image or an error, and the
    image it returns is laid out for its bounds, which are not negative. *)
Definition decoder_ok (env : Env) : Prop :=
  forall data,
    match png_Decode env data with
    | (Some img, None) =>
        wf_image img /\ 0 <= Dx (Bounds img) /\ 0 <= Dy (Bounds img)
    | (_, Some _) => True
    | (None, None) => False
    end.

(** ** A stricter instance of the collaborators

    [stubEnv] with a decoder that rejects negative dimensions, as
    [png.Decode] does, and with a QR encoder that fails on a content of more
    than 8 characters, as [qrcode.Encode] fails on a content that does not
    fit the largest code. *)
Definition checked_decode (data : bytes) : option Image * option error :=
  match data with
  | [137; w; h] =>
      if (w <? 0) || (h <? 0)
      then (None, Some (ErrorString "png: invalid format: negative dimension"))
      else (Some (stub_image w h), None)
  | _ => (None, Some (ErrorString "png: invalid format: not a PNG file"))
  end.

Definition checkedEnv : Env :=
  {| qrcode_Encode := fun content level size =>
       if (8 <? Z.of_nat (String.length content))
       then ([], Some (ErrorString "content too long to encode"))
       else qrcode_Encode stubEnv content level size;
     png_Decode := checked_decode;
     png_Encode := png_Encode stubEnv;
     http_DetectContentType := stub_sniff;
     resample := resample stubEnv;
     resample_Bounds := resample_Bounds stubEnv |}.

(** * Properties *)

(** ** Running the monad *)

Lemma Atoi_ok_nonempty (s : string) (n : Z) :
  Atoi s = (n, None) -> String.eqb s EmptyString = false.
Proof. destruct s; [discriminate | reflexivity]. Qed.

Lemma eqb_empty_false (s : string) :
  s <> EmptyString -> String.eqb s EmptyString = false.
Proof. destruct s; [congruence | reflexivity]. Qed.

Ltac run :=
  unfold serve, HandleRequest, GenerateWithWatermark, addWatermark,
    resizeWatermark, Generate, UploadFile, call_io_Copy, call_png_Decode,
    call_png_Encode, call_qrcode_Encode, call_DetectContentType, call_Resize,
    call_Draw, json_Encode_string, Write, write_chunk, WriteHeader, Header_Set,
    Header_Add, modify_resp, record, bind, ret, panic;
  cbn -[Draw NewRGBA watermarkWidth watermarkOffset resize_Resize String.append].

Ltac cases :=
  repeat (cbn -[Draw NewRGBA watermarkWidth watermarkOffset resize_Resize
                  String.append];
          match goal with
          | |- context [match ?x with _ => _ end] =>
              lazymatch x with
              | context [match _ with _ => _ end] => fail
              | _ => destruct x
              end
          end).

(** ** binary64: conversion of integers *)

Lemma digits2_pos_iter_xO (p k : positive) :
  digits2_pos (Pos.iter xO p k) = (digits2_pos p + k)%positive.
Proof.
  induction k as [| k IH] using Pos.peano_ind.
  - cbn. lia.
  - rewrite Pos.iter_succ. cbn. rewrite IH. lia.
Qed.

Lemma Zpos_iter_xO (p k : positive) :
  Z.pos (Pos.iter xO p k) = Z.pos p * 2 ^ Z.pos k.
Proof.
  induction k as [| k IH] using Pos.peano_ind.
  - cbn. lia.
  - rewrite Pos.iter_succ, Pos2Z.inj_succ, Z.pow_succ_r by lia.
    rewrite Pos2Z.inj_xO, IH. lia.
Qed.

Lemma digits2_pos_bounds (p : positive) :
  2 ^ (Z.pos (digits2_pos p) - 1) <= Z.pos p < 2 ^ Z.pos (digits2_pos p).
Proof.
  induction p as [p IH | p IH |]; cbn [digits2_pos].
  - rewrite Pos2Z.inj_succ.
    replace (Z.succ (Z.pos (digits2_pos p)) - 1)
      with (Z.succ (Z.pos (digits2_pos p) - 1)) by lia.
    rewrite !Z.pow_succ_r by lia. lia.
  - rewrite Pos2Z.inj_succ.
    replace (Z.succ (Z.pos (digits2_pos p)) - 1)
      with (Z.succ (Z.pos (digits2_pos p) - 1)) by lia.
    rewrite !Z.pow_succ_r by lia. lia.
  - cbn. lia.
Qed.

Lemma binary_round_aux_canonical (s : bool) (m : positive) (e : Z) :
  Z.pos (digits2_pos m) = 53 -> -1074 <= e <= 971 ->
  binary_round_aux f64_prec f64_emax s (Z.pos m) e loc_Exact = S754_finite s m e.
Proof.
  intros Hd He.
  unfold binary_round_aux, shr_fexp. cbn [Zdigits2 shr_record_of_loc].
  rewrite Hd.
  replace (fexp f64_prec f64_emax (53 + e) - e) with 0
    by (unfold fexp, emin, f64_prec, f64_emax; lia).
  cbn [shr shr_m loc_of_shr_record round_nearest_even Zdigits2].
  rewrite Hd.
  replace (fexp f64_prec f64_emax (53 + e) - e) with 0
    by (unfold fexp, emin, f64_prec, f64_emax; lia).
  cbn [shr shr_m shr_record_of_loc].
  replace (e <=? f64_emax - f64_prec) with true
    by (symmetry; apply Z.leb_le; unfold f64_emax, f64_prec; lia).
  reflexivity.
Qed.

Lemma float64_of_int_pos (n : Z) :
  0 < n < 2 ^ 53 ->
  exists m k,
    float64_of_int n = S754_finite false m (- k) /\ 0 <= k <= 52 /\
    Z.pos m = n * 2 ^ k /\ Z.pos (digits2_pos m) = 53.
Proof.
  intros Hn. destruct n as [| p |]; try lia.
  unfold float64_of_int, binary_normalize, binary_round, shl_align.
  pose proof (digits2_pos_bounds p) as Hb.
  assert (Hd : Z.pos (digits2_pos p) <= 53).
  { destruct (Z_le_gt_dec (Z.pos (digits2_pos p)) 53) as [| Hgt]; [assumption |].
    assert (2 ^ 53 <= 2 ^ (Z.pos (digits2_pos p) - 1))
      by (apply Z.pow_le_mono_r; lia). lia. }
  replace (fexp f64_prec f64_emax (Z.pos (digits2_pos p) + 0) - 0)
    with (Z.pos (digits2_pos p) - 53)
    by (unfold fexp, emin, f64_prec, f64_emax; lia).
  destruct (Z.pos (digits2_pos p) - 53) as [| q | q] eqn:Hq; try lia.
  - exists p, 0. rewrite binary_round_aux_canonical by lia.
    repeat split; lia.
  - exists (Pos.iter xO p q), (Z.pos q).
    replace (fexp f64_prec f64_emax (Z.pos (digits2_pos p) + 0))
      with (- Z.pos q) by (unfold fexp, emin, f64_prec, f64_emax; lia).
    assert (Hdq : Z.pos (digits2_pos (Pos.iter xO p q)) = 53)
      by (rewrite digits2_pos_iter_xO; lia).
    rewrite binary_round_aux_canonical by lia.
    repeat split; try lia. apply Zpos_iter_xO.
Qed.

(** ** binary64: a quarter *)

Lemma f64_mul_quarter (m : positive) (k : Z) :
  Z.pos (digits2_pos m) = 53 -> 0 <= k <= 52 ->
  f64_mul (S754_finite false m (- k)) f64_0_25 = S754_finite false m (- k - 2).
Proof.
  intros Hd Hk.
  assert (Hd' : digits2_pos m = 53%positive) by (injection Hd; auto).
  unfold f64_mul, SFmul, f64_0_25.
  rewrite Pos.mul_comm.
  change (4503599627370496 * m)%positive with (Pos.iter xO m 52).
  cbn [xorb].
  unfold binary_round_aux, shr_fexp.
  cbn [Zdigits2 shr_record_of_loc]. rewrite digits2_pos_iter_xO, Hd'.
  change (Z.pos (53 + 52)) with 105.
  replace (fexp f64_prec f64_emax (105 + (- k + -54)) - (- k + -54)) with 52
    by (unfold fexp, emin, f64_prec, f64_emax; lia).
  cbv [Pos.iter].
  cbn [shr SpecFloat.iter_pos shr_1 shr_m loc_of_shr_record orb round_nearest_even
       Zdigits2 fst snd].
  rewrite Hd'.
  replace (fexp f64_prec f64_emax (53 + (- k + -54 + 52)) - (- k + -54 + 52))
    with 0 by (unfold fexp, emin, f64_prec, f64_emax; lia).
  cbn [shr shr_m shr_record_of_loc].
  replace (- k + -54 + 52 <=? f64_emax - f64_prec) with true
    by (symmetry; apply Z.leb_le; unfold f64_emax, f64_prec; lia).
  f_equal. lia.
Qed.

Lemma watermarkWidth_quarter (w : Z) :
  0 <= w < 2 ^ 53 -> watermarkWidth w = w / 4.
Proof.
  intros Hw. destruct (Z.eq_dec w 0) as [-> | Hnz]; [reflexivity |].
  destruct (float64_of_int_pos w) as (m & k & HF & Hk & Hm & Hd); [lia |].
  unfold watermarkWidth. rewrite HF, f64_mul_quarter by assumption.
  unfold uint_of_float64.
  replace (0 <=? - k - 2) with false by (symmetry; apply Z.leb_gt; lia).
  rewrite Hm. replace (- (- k - 2)) with (k + 2) by lia.
  rewrite Z.pow_add_r by lia. change (2 ^ 2) with 4.
  rewrite <- Z.div_div by (try apply Z.pow_pos_nonneg; lia).
  rewrite Z.div_mul by (apply Z.pow_nonzero; lia).
  reflexivity.
Qed.

(** ** binary64: division *)

Lemma div_eucl_div_mod (a b : Z) : Z.div_eucl a b = (a / b, a mod b).
Proof. unfold Z.div, Z.modulo. destruct (Z.div_eucl a b); reflexivity. Qed.

Lemma new_location_zero (n : Z) : new_location n 0 = loc_Exact.
Proof. unfold new_location. destruct (Z.even n); reflexivity. Qed.

Lemma f64_div_self (m : positive) (e : Z) :
  f64_div (S754_finite false m e) (S754_finite false m e) = f64_1.
Proof.
  unfold f64_div, SFdiv, SFdiv_core_binary.
  replace (Zdigits2 (Z.pos m) + e - (Zdigits2 (Z.pos m) + e)) with 0 by lia.
  replace (e - e) with 0 by lia.
  change (Z.min (fexp f64_prec f64_emax 0) 0) with (-53).
  change (0 - -53) with 53.
  rewrite div_eucl_div_mod, Z.shiftl_mul_pow2 by lia.
  rewrite Z.mul_comm, Z.div_mul, Z.mod_mul by lia.
  rewrite new_location_zero. reflexivity.
Qed.

Lemma f64_div_one (m : positive) (e : Z) :
  Z.pos (digits2_pos m) = 53 -> -1073 <= e <= 971 ->
  f64_div (S754_finite false m e) f64_1 = S754_finite false m e.
Proof.
  intros Hd He.
  assert (Hd' : digits2_pos m = 53%positive) by (injection Hd; auto).
  unfold f64_div, SFdiv, SFdiv_core_binary, f64_1.
  cbn [Zdigits2]. rewrite Hd'.
  change (Z.pos (digits2_pos 4503599627370496)) with 53.
  replace (Z.min (fexp f64_prec f64_emax (53 + e - (53 + -52))) (e - -52))
    with (e - 1) by (unfold fexp, emin, f64_prec, f64_emax; lia).
  replace (e - -52 - (e - 1)) with 53 by lia.
  rewrite div_eucl_div_mod, Z.shiftl_mul_pow2 by lia.
  change (2 ^ 53) with (2 * 4503599627370496).
  rewrite Z.mul_assoc, Z.div_mul, Z.mod_mul by lia.
  rewrite new_location_zero.
  replace (Z.pos m * 2) with (Z.pos m~0) by lia.
  unfold binary_round_aux, shr_fexp.
  cbn [Zdigits2 digits2_pos shr_record_of_loc xorb]. rewrite Hd'.
  change (Z.pos (Pos.succ 53)) with 54.
  replace (fexp f64_prec f64_emax (54 + (e - 1)) - (e - 1)) with 1
    by (unfold fexp, emin, f64_prec, f64_emax; lia).
  cbn [shr SpecFloat.iter_pos shr_1 shr_m loc_of_shr_record orb round_nearest_even
       Zdigits2 fst snd].
  rewrite Hd'.
  replace (fexp f64_prec f64_emax (Z.pos 53 + (e - 1 + 1)) - (e - 1 + 1)) with 0
    by (unfold fexp, emin, f64_prec, f64_emax; lia).
  cbn [shr shr_m shr_record_of_loc].
  replace (e - 1 + 1 <=? f64_emax - f64_prec) with true
    by (symmetry; apply Z.leb_le; unfold f64_emax, f64_prec; lia).
  f_equal. lia.
Qed.

(** ** binary64: right shifts and digits *)

Lemma iter_pos_nat {A : Type} (f : A -> A) (n : positive) (x : A) :
  SpecFloat.iter_pos f n x = Nat.iter (Pos.to_nat n) f x.
Proof.
  revert x. induction n as [n IH | n IH |]; intros x; cbn [SpecFloat.iter_pos].
  - rewrite !IH, Pos2Nat.inj_xI.
    replace (S (2 * Pos.to_nat n)) with (Pos.to_nat n + (Pos.to_nat n + 1))%nat by lia.
    rewrite !Nat.iter_add. reflexivity.
  - rewrite !IH, Pos2Nat.inj_xO.
    replace (2 * Pos.to_nat n)%nat with (Pos.to_nat n + Pos.to_nat n)%nat by lia.
    rewrite Nat.iter_add. reflexivity.
  - reflexivity.
Qed.

Lemma shr_1_m (r : shr_record) :
  0 <= shr_m r -> shr_m (shr_1 r) = shr_m r / 2.
Proof.
  destruct r as [m r s]. cbn [shr_m]. intros Hm.
  destruct m as [| p |]; [reflexivity | | lia].
  destruct p as [p | p |]; cbn [shr_1 shr_m].
  - rewrite Pos2Z.inj_xI. apply Z.div_unique with 1; lia.
  - rewrite Pos2Z.inj_xO. apply Z.div_unique with 0; lia.
  - reflexivity.
Qed.

Lemma shr_iter_m (n : positive) (r : shr_record) :
  0 <= shr_m r -> shr_m (SpecFloat.iter_pos shr_1 n r) = shr_m r / 2 ^ Z.pos n.
Proof.
  intros Hm. rewrite iter_pos_nat, <- (positive_nat_Z n).
  induction (Pos.to_nat n) as [| k IH].
  - change (Nat.iter 0 shr_1 r) with r. change (2 ^ Z.of_nat 0) with 1.
    rewrite Z.div_1_r. reflexivity.
  - change (Nat.iter (S k) shr_1 r) with (shr_1 (Nat.iter k shr_1 r)).
    assert (H0 : 0 <= shr_m (Nat.iter k shr_1 r))
      by (rewrite IH; apply Z.div_pos; [assumption | apply Z.pow_pos_nonneg; lia]).
    rewrite shr_1_m, IH, Nat2Z.inj_succ, Z.pow_succ_r by lia.
    rewrite Z.div_div by (try apply Z.pow_pos_nonneg; lia).
    f_equal. lia.
Qed.

Lemma round_nearest_even_bounds (m : Z) (l : location) :
  m <= round_nearest_even m l <= m + 1.
Proof.
  destruct l as [| []]; cbn; try destruct (Z.even m); lia.
Qed.

Lemma digits2_pos_unique (p : positive) (d : Z) :
  2 ^ (d - 1) <= Z.pos p < 2 ^ d -> Z.pos (digits2_pos p) = d.
Proof.
  intros H. pose proof (digits2_pos_bounds p) as Hb.
  assert (Hd : 0 < d).
  { destruct (Z_lt_le_dec 0 d); [assumption |].
    assert (2 ^ d <= 2 ^ 0) by (apply Z.pow_le_mono_r; lia). cbn in *. lia. }
  destruct (Z.lt_trichotomy (Z.pos (digits2_pos p)) d) as [Hlt | [Heq | Hgt]];
    [| assumption |].
  - assert (2 ^ Z.pos (digits2_pos p) <= 2 ^ (d - 1))
      by (apply Z.pow_le_mono_r; lia). lia.
  - assert (2 ^ d <= 2 ^ (Z.pos (digits2_pos p) - 1))
      by (apply Z.pow_le_mono_r; lia). lia.
Qed.

(** ** binary64: adding 0.7 *)

Lemma f64_add_0_7_trunc (m : positive) (k h : Z) :
  Z.pos (digits2_pos m) = 53 -> 2 <= k <= 52 -> Z.pos m = h * 2 ^ k ->
  uint_of_float64 (f64_add f64_0_7 (S754_finite false m (- k))) = h.
Proof.
  intros Hd Hk Hm.
  pose proof (digits2_pos_bounds m) as Hb. rewrite Hd in Hb.
  change (2 ^ (53 - 1)) with 4503599627370496 in Hb.
  change (2 ^ 53) with 9007199254740992 in Hb.
  destruct (53 - k) as [| q |] eqn:Hq; try lia.
  set (A := 2 ^ k) in *. set (B := 2 ^ Z.pos q).
  assert (HA : 4 <= A) by (change 4 with (2 ^ 2); apply Z.pow_le_mono_r; lia).
  assert (HB : 2 <= B <= 2251799813685248).
  { change 2 with (2 ^ 1) at 1. change 2251799813685248 with (2 ^ 51).
    split; apply Z.pow_le_mono_r; lia. }
  assert (HAB : A * B = 9007199254740992).
  { unfold A, B. rewrite <- Z.pow_add_r by lia.
    replace (k + Z.pos q) with 53 by lia. reflexivity. }
  assert (Hh : 0 < h < B) by nia.
  unfold f64_add, SFadd, f64_0_7.
  replace (Z.min (-53) (- k)) with (-53) by lia.
  unfold shl_align at 1 2. change (-53 - -53) with 0.
  replace (-53 - - k) with (Z.neg q) by lia.
  cbn [fst cond_Zopp Z.add].
  set (S := (6305039478318694 + Pos.iter xO m q)%positive).
  assert (HS : Z.pos S = 6305039478318694 + h * A * B).
  { unfold S. rewrite Pos2Z.inj_add, Zpos_iter_xO, Hm. reflexivity. }
  assert (HD : Z.pos (digits2_pos S) = 53 + Z.pos q).
  { apply digits2_pos_unique.
    replace (53 + Z.pos q - 1) with (52 + Z.pos q) by lia.
    rewrite !Z.pow_add_r by lia. fold B.
    change (2 ^ 52) with 4503599627370496.
    change (2 ^ 53) with 9007199254740992. nia. }
  change (6305039478318694 + Z.pos (PosDef.Pos.iter xO m q)) with (Z.pos S).
  unfold binary_normalize, binary_round. rewrite HD.
  replace (fexp f64_prec f64_emax (53 + Z.pos q + -53)) with (- k)
    by (unfold fexp, emin, f64_prec, f64_emax; lia).
  unfold shl_align. replace (- k - -53) with (Z.pos q) by lia.
  unfold binary_round_aux, shr_fexp. cbn [Zdigits2 shr_record_of_loc]. rewrite HD.
  replace (fexp f64_prec f64_emax (53 + Z.pos q + -53) - -53) with (Z.pos q)
    by (unfold fexp, emin, f64_prec, f64_emax; lia).
  cbn [shr].
  set (mrs := SpecFloat.iter_pos shr_1 q _).
  assert (HQ : shr_m mrs = h * A + 6305039478318694 / B).
  { unfold mrs. rewrite shr_iter_m by (cbn; lia). cbn [shr_m]. fold B.
    rewrite HS, Z.add_comm, Z.div_add_l by lia. reflexivity. }
  assert (Hfrac : 0 <= 6305039478318694 / B < A - 1).
  { split; [apply Z.div_pos; lia |]. apply Z.div_lt_upper_bound; nia. }
  pose proof (round_nearest_even_bounds (shr_m mrs) (loc_of_shr_record mrs)) as HM.
  set (M := round_nearest_even (shr_m mrs) (loc_of_shr_record mrs)) in *.
  assert (HMb : h * A <= M < (h + 1) * A) by lia.
  destruct M as [| Mp |] eqn:HMp; try nia.
  assert (HDM : Z.pos (digits2_pos Mp) = 53).
  { apply digits2_pos_unique. change (2 ^ (53 - 1)) with 4503599627370496.
    change (2 ^ 53) with 9007199254740992. nia. }
  cbn [Zdigits2]. rewrite HDM.
  replace (fexp f64_prec f64_emax (53 + (-53 + Z.pos q)) - (-53 + Z.pos q)) with 0
    by (unfold fexp, emin, f64_prec, f64_emax; lia).
  cbn [shr shr_m].
  replace (-53 + Z.pos q <=? f64_emax - f64_prec) with true
    by (symmetry; apply Z.leb_le; unfold f64_emax, f64_prec; lia).
  unfold uint_of_float64.
  replace (0 <=? -53 + Z.pos q) with false by (symmetry; apply Z.leb_gt; lia).
  replace (- (-53 + Z.pos q)) with k by lia. fold A.
  symmetry. apply Z.div_unique with (Z.pos Mp - h * A); lia.
Qed.

(** ** The size of a resized image *)

Lemma uint_of_float64_nonneg (f : float64) : 0 <= uint_of_float64 f.
Proof.
  destruct f as [| | | [] m e]; cbn; try lia.
  destruct (0 <=? e) eqn:He.
  - apply Z.leb_le in He. assert (0 < 2 ^ e) by (apply Z.pow_pos_nonneg; lia). lia.
  - apply Z.div_pos; [lia |]. apply Z.pow_pos_nonneg; [lia |].
    apply Z.leb_gt in He. lia.
Qed.

(** [uint(0.7 + float64(h)/1.0)] is [h]. *)
Lemma derived_size_unit_scale (h : Z) :
  0 <= h < 2 ^ 51 ->
  uint_of_float64 (f64_add f64_0_7 (f64_div (float64_of_int h) f64_1)) = h.
Proof.
  intros Hh. destruct (Z.eq_dec h 0) as [-> | Hnz]; [reflexivity |].
  destruct (float64_of_int_pos h) as (m & k & HF & Hk & Hm & Hd);
    [change (2 ^ 53) with 9007199254740992;
     change (2 ^ 51) with 2251799813685248 in Hh; lia |].
  assert (Hk2 : 2 <= k).
  { pose proof (digits2_pos_bounds m) as Hb. rewrite Hd, Hm in Hb.
    destruct (Z_le_gt_dec 2 k) as [| Hlt]; [assumption | exfalso].
    assert (Hk01 : k = 0 \/ k = 1) by lia.
    change (2 ^ (53 - 1)) with 4503599627370496 in Hb.
    change (2 ^ 51) with 2251799813685248 in Hh.
    destruct Hk01 as [-> | ->]; cbn in Hb; lia. }
  rewrite HF, f64_div_one by (assumption || lia).
  apply f64_add_0_7_trunc; (assumption || lia).
Qed.

Lemma f64_div_self_int (w : Z) :
  0 < w < 2 ^ 53 -> f64_div (float64_of_int w) (float64_of_int w) = f64_1.
Proof.
  intros Hw. destruct (float64_of_int_pos w Hw) as (m & k & HF & _).
  rewrite HF. apply f64_div_self.
Qed.

Section Resize.
Variable rs : InterpolationFunction -> Z -> Z -> Image -> Image.
Hypothesis rs_Bounds : forall interp w h img,
  Bounds (rs interp w h img) = mkRect (Pt 0 0) (Pt w h).

(** A nonzero target width is the width of the result. *)
Lemma resize_Resize_width (width : Z) (img : Image) (interp : InterpolationFunction) :
  width <> 0 -> 0 < Dx (Bounds img) -> 0 < Dy (Bounds img) ->
  Dx (Bounds (resize_Resize rs width 0 img interp)) = width.
Proof.
  intros Hw Hx Hy. unfold resize_Resize, calcFactors.
  apply Z.eqb_neq in Hw. rewrite Hw. cbn [Z.eqb].
  match goal with |- context [if ?c then img else _] => destruct c eqn:Hc end.
  - apply andb_true_iff in Hc. destruct Hc as [Hc _].
    apply Z.eqb_eq in Hc. symmetry. exact Hc.
  - replace ((Dx (Bounds img) <=? 0) || (Dy (Bounds img) <=? 0)) with false
      by (symmetry; apply orb_false_iff; split; apply Z.leb_gt; assumption).
    rewrite rs_Bounds. unfold Dx. cbn. lia.
Qed.

(** An image that has the bounds of a result of [Resize] for some target
    width is returned as it is when resized to that width again. *)
Lemma resize_Resize_fixed (width : Z) (img img' : Image)
  (interp : InterpolationFunction) :
  0 <= width < 2 ^ 51 ->
  Bounds img' = Bounds (resize_Resize rs width 0 img interp) ->
  Dx (Bounds img') < 2 ^ 51 -> Dy (Bounds img') < 2 ^ 51 ->
  resize_Resize rs width 0 img' interp = img'.
Proof.
  intros Hw Hb Hx Hy. revert Hb.
  unfold resize_Resize at 1.
  destruct (calcFactors width 0 (float64_of_int (Dx (Bounds img)))
              (float64_of_int (Dy (Bounds img)))) as [scaleX scaleY] eqn:Hcf.
  match goal with |- context [if ?c then img else _] => destruct c eqn:Hc end.
  - (* the first result is the source itself *)
    intros Hb. unfold resize_Resize. rewrite Hb, Hcf, Hc. reflexivity.
  - match goal with |- context [if ?c then img else _] => destruct c eqn:Hc' end.
    + intros Hb. unfold resize_Resize. rewrite Hb, Hcf, Hc, Hc'. reflexivity.
    + rewrite rs_Bounds. intros Hb.
      assert (Hdx : Dx (Bounds img') =
                    if width =? 0
                    then uint_of_float64
                           (f64_add f64_0_7
                              (f64_div (float64_of_int (Dx (Bounds img))) scaleX))
                    else width) by (rewrite Hb; unfold Dx; cbn; lia).
      assert (Hdy : Dy (Bounds img') =
                    uint_of_float64
                      (f64_add f64_0_7
                         (f64_div (float64_of_int (Dy (Bounds img))) scaleY)))
        by (rewrite Hb; unfold Dy; cbn; lia).
      assert (Hx0 : 0 <= Dx (Bounds img'))
        by (rewrite Hdx; destruct (width =? 0);
            [apply uint_of_float64_nonneg | lia]).
      assert (Hy0 : 0 <= Dy (Bounds img'))
        by (rewrite Hdy; apply uint_of_float64_nonneg).
      clear Hcf Hc Hc' Hb.
      unfold resize_Resize, calcFactors.
      destruct (width =? 0) eqn:Hw0.
      * cbn [Z.eqb].
        rewrite !derived_size_unit_scale by lia.
        rewrite !Z.eqb_refl. reflexivity.
      * apply Z.eqb_neq in Hw0. cbn [Z.eqb]. rewrite Hdx.
        rewrite f64_div_self_int
          by (change (2 ^ 53) with 9007199254740992;
              change (2 ^ 51) with 2251799813685248 in Hw; lia).
        rewrite derived_size_unit_scale by lia.
        rewrite !Z.eqb_refl. reflexivity.
Qed.

(** [Resize] at width 0 returns its source. *)
Lemma resize_Resize_zero (img : Image) (interp : InterpolationFunction) :
  0 <= Dx (Bounds img) < 2 ^ 51 -> 0 <= Dy (Bounds img) < 2 ^ 51 ->
  resize_Resize rs 0 0 img interp = img.
Proof.
  intros Hx Hy. unfold resize_Resize, calcFactors. cbn [Z.eqb].
  rewrite !derived_size_unit_scale by lia.
  rewrite !Z.eqb_refl. reflexivity.
Qed.
End Resize.

(** ** Slices *)

Lemma index_Some (s : bytes) (i : Z) :
  0 <= i < Z.of_nat (length s) -> exists b, index s i = Some b.
Proof.
  intros Hi. unfold index.
  replace (i <? 0) with false by (symmetry; apply Z.ltb_ge; lia).
  destruct (lookup_lt_is_Some_2 s (Z.to_nat i)) as [b Hb]; [lia |].
  exists b. exact Hb.
Qed.

Lemma read4_Some (s : bytes) (i : Z) :
  0 <= i -> i + 4 <= Z.of_nat (length s) -> exists v, read4 s i = Some v.
Proof.
  intros H0 H4. unfold read4.
  destruct (index_Some s i) as [a ->]; [lia |].
  destruct (index_Some s (i + 1)) as [b ->]; [lia |].
  destruct (index_Some s (i + 2)) as [c ->]; [lia |].
  destruct (index_Some s (i + 3)) as [d ->]; [lia |].
  eexists; reflexivity.
Qed.

Lemma write4_length (s s' : bytes) (i : Z) (v : Pixel) :
  write4 s i v = Some s' -> length s' = length s.
Proof.
  unfold write4. destruct (_ && _); [| discriminate].
  intros [= <-]. rewrite !length_insert. reflexivity.
Qed.

Lemma write4_Some (s : bytes) (i : Z) (v : Pixel) :
  0 <= i -> i + 4 <= Z.of_nat (length s) -> exists s', write4 s i v = Some s'.
Proof.
  intros H0 H4. unfold write4.
  replace ((0 <=? i) && (i + 4 <=? Z.of_nat (length s))) with true
    by (symmetry; apply andb_true_iff; split; apply Z.leb_le; lia).
  eexists; reflexivity.
Qed.

Lemma index_insert_same (s : bytes) (i b : Z) :
  0 <= i < Z.of_nat (length s) -> index (<[Z.to_nat i := b]> s) i = Some b.
Proof.
  intros Hi. unfold index.
  replace (i <? 0) with false by (symmetry; apply Z.ltb_ge; lia).
  apply list_lookup_insert_eq. lia.
Qed.

Lemma index_insert_other (s : bytes) (i j b : Z) :
  0 <= i -> i <> j -> index (<[Z.to_nat i := b]> s) j = index s j.
Proof.
  intros Hi Hne. unfold index. destruct (j <? 0) eqn:Hj; [reflexivity |].
  apply Z.ltb_ge in Hj. apply list_lookup_insert_ne. lia.
Qed.

Lemma read4_write4_same (s s' : bytes) (i : Z) (v : Pixel) :
  write4 s i v = Some s' -> read4 s' i = Some v.
Proof.
  unfold write4. destruct (_ && _) eqn:Hc; [| discriminate].
  apply andb_true_iff in Hc. destruct Hc as [H0 H4].
  apply Z.leb_le in H0. apply Z.leb_le in H4.
  intros [= <-]. unfold read4.
  rewrite (index_insert_other _ (i + 3) i), (index_insert_other _ (i + 2) i),
    (index_insert_other _ (i + 1) i), index_insert_same by lia.
  rewrite (index_insert_other _ (i + 3) (i + 1)),
    (index_insert_other _ (i + 2) (i + 1)), index_insert_same
    by (rewrite ?length_insert; lia).
  rewrite (index_insert_other _ (i + 3) (i + 2)), index_insert_same
    by (rewrite ?length_insert; lia).
  rewrite index_insert_same by (rewrite ?length_insert; lia).
  destruct v; reflexivity.
Qed.

Lemma read4_write4_other (s s' : bytes) (i j : Z) (v : Pixel) :
  write4 s i v = Some s' -> j + 4 <= i \/ i + 4 <= j -> read4 s' j = read4 s j.
Proof.
  unfold write4. destruct (_ && _) eqn:Hc; [| discriminate].
  apply andb_true_iff in Hc. destruct Hc as [H0 H4].
  apply Z.leb_le in H0. apply Z.leb_le in H4.
  intros [= <-] Hd. unfold read4.
  rewrite !index_insert_other by lia. reflexivity.
Qed.

(** ** Rectangles *)

Lemma Point_In_iff (p : Point) (r : Rectangle) :
  Point_In p r = true <->
  X (Min r) <= X p < X (Max r) /\ Y (Min r) <= Y p < Y (Max r).
Proof.
  unfold Point_In. rewrite !andb_true_iff, !Z.leb_le, !Z.ltb_lt. lia.
Qed.

Lemma Rect_Empty_false (r : Rectangle) :
  Rect_Empty r = false <-> X (Min r) < X (Max r) /\ Y (Min r) < Y (Max r).
Proof.
  unfold Rect_Empty. rewrite orb_false_iff, !Z.leb_gt. reflexivity.
Qed.

Lemma Rect_Intersect_In (p : Point) (r s : Rectangle) :
  Point_In p (Rect_Intersect r s) = Point_In p r && Point_In p s.
Proof.
  apply eq_true_iff_eq. rewrite andb_true_iff, !Point_In_iff.
  unfold Rect_Intersect.
  destruct (Rect_Empty _) eqn:He.
  - unfold Rect_Empty in He. apply orb_true_iff in He. cbn in He |- *.
    rewrite !Z.leb_le in He.
    destruct (X (Min r) <? X (Min s)) eqn:H1, (Y (Min r) <? Y (Min s)) eqn:H2,
      (X (Max s) <? X (Max r)) eqn:H3, (Y (Max s) <? Y (Max r)) eqn:H4;
      rewrite ?Z.ltb_lt, ?Z.ltb_ge in *; lia.
  - apply Rect_Empty_false in He. cbn in He |- *.
    destruct (X (Min r) <? X (Min s)) eqn:H1, (Y (Min r) <? Y (Min s)) eqn:H2,
      (X (Max s) <? X (Max r)) eqn:H3, (Y (Max s) <? Y (Max r)) eqn:H4;
      rewrite ?Z.ltb_lt, ?Z.ltb_ge in *; lia.
Qed.

(** A point of the clipped rectangle is a covered point, and its source
    point is the one the clipped source point yields. *)
Lemma clip_In (dst : PixBuf) (r : Rectangle) (src : Image) (sp : Point) (x y : Z) :
  Point_In (Pt x y) (fst (clip dst r src sp)) = covered dst r src sp x y.
Proof.
  unfold clip, covered. cbn [fst].
  rewrite !Rect_Intersect_In. f_equal.
  apply eq_true_iff_eq. rewrite !Point_In_iff.
  unfold sourcePoint, Rect_Add, Point_Add, Point_Sub. cbn. lia.
Qed.

Lemma clip_sourcePoint (dst : PixBuf) (r : Rectangle) (src : Image) (sp : Point)
  (x y : Z) :
  sourcePoint (fst (clip dst r src sp)) (snd (clip dst r src sp)) x y
  = sourcePoint r sp x y.
Proof.
  unfold clip, sourcePoint. cbn [fst snd X Y]. f_equal; lia.
Qed.

(** ** Pixels of a buffer *)

Lemma same_geom_refl (p : PixBuf) : same_geom p p.
Proof. repeat split. Qed.

Lemma same_geom_trans (p q r : PixBuf) :
  same_geom p q -> same_geom q r -> same_geom p r.
Proof. unfold same_geom. intros (? & ? & ?) (? & ? & ?). repeat split; congruence. Qed.

Lemma same_geom_wf (bpp : Z) (p p' : PixBuf) :
  same_geom p p' -> wf_buf bpp p -> wf_buf bpp p'.
Proof.
  unfold same_geom, wf_buf. intros (-> & -> & ->). tauto.
Qed.

Lemma PixOffset_range (bpp : Z) (p : PixBuf) (x y : Z) :
  0 < bpp -> wf_buf bpp p -> Point_In (Pt x y) (Rect p) = true ->
  0 <= PixOffset bpp p x y /\ PixOffset bpp p x y + bpp <= Z.of_nat (length (Pix p)).
Proof.
  intros Hb (Hx & Hy & Hs & Hl) Hin. apply Point_In_iff in Hin. cbn in Hin.
  unfold PixOffset. rewrite Hl, Hs. unfold Dx, Dy in *.
  set (W := X (Max (Rect p)) - X (Min (Rect p))) in *.
  set (H := Y (Max (Rect p)) - Y (Min (Rect p))) in *.
  set (u := x - X (Min (Rect p))). set (v := y - Y (Min (Rect p))).
  assert (0 <= u < W) by (unfold u, W; lia).
  assert (0 <= v < H) by (unfold v, H; lia).
  split; [nia |].
  assert (v * (bpp * W) + u * bpp + bpp <= (v + 1) * (bpp * W)) by nia.
  assert ((v + 1) * (bpp * W) <= H * (bpp * W)) by (apply Z.mul_le_mono_nonneg_r; nia).
  lia.
Qed.

Lemma PixOffset_apart (p : PixBuf) (x y x' y' : Z) :
  wf_buf 4 p -> Point_In (Pt x y) (Rect p) = true ->
  Point_In (Pt x' y') (Rect p) = true -> (x, y) <> (x', y') ->
  PixOffset 4 p x' y' + 4 <= PixOffset 4 p x y \/
  PixOffset 4 p x y + 4 <= PixOffset 4 p x' y'.
Proof.
  intros (Hx & Hy & Hs & Hl) Hin Hin' Hne.
  apply Point_In_iff in Hin. apply Point_In_iff in Hin'. cbn in Hin, Hin'.
  unfold PixOffset. rewrite Hs. unfold Dx, Dy in *.
  set (W := X (Max (Rect p)) - X (Min (Rect p))) in *.
  set (u := x - X (Min (Rect p))). set (v := y - Y (Min (Rect p))).
  set (u' := x' - X (Min (Rect p))). set (v' := y' - Y (Min (Rect p))).
  assert (0 <= u < W) by (unfold u, W; lia).
  assert (0 <= u' < W) by (unfold u', W; lia).
  assert (Hcase : v < v' \/ v' < v \/ (v = v' /\ u <> u')).
  { destruct (Z.lt_trichotomy v v') as [| [Heq |]]; [tauto | | tauto].
    right; right. split; [assumption |]. intros Hu. apply Hne.
    f_equal; unfold u, u', v, v' in *; lia. }
  destruct Hcase as [Hv | [Hv | [Hv Hu]]].
  - right. assert ((v + 1) * (4 * W) <= v' * (4 * W))
      by (apply Z.mul_le_mono_nonneg_r; lia). nia.
  - left. assert ((v' + 1) * (4 * W) <= v * (4 * W))
      by (apply Z.mul_le_mono_nonneg_r; lia). nia.
  - rewrite Hv. lia.
Qed.

Lemma pixelAt_Some (p : PixBuf) (x y : Z) :
  wf_buf 4 p -> Point_In (Pt x y) (Rect p) = true ->
  exists d, pixelAt p x y = Some d.
Proof.
  intros Hwf Hin. destruct (PixOffset_range 4 p x y) as [H0 H4]; try assumption; [lia |].
  apply read4_Some; assumption.
Qed.

(** A source pixel inside the source's bounds can be fetched. *)
Lemma blendPixel_Some (op : Op) (src : Image) (sx sy : Z) (d : Pixel) :
  wf_image src -> Point_In (Pt sx sy) (Bounds src) = true ->
  exists v, blendPixel op src sx sy d = Some v.
Proof.
  intros Hwf Hin. destruct src as [p | p | p | b f]; cbn in Hwf, Hin |- *.
  - destruct (PixOffset_range 4 p sx sy) as [H0 H4]; try assumption; [lia |].
    destruct (read4_Some (Pix p) _ H0 H4) as [s ->]. eexists; reflexivity.
  - destruct (PixOffset_range 4 p sx sy) as [H0 H4]; try assumption; [lia |].
    destruct (read4_Some (Pix p) _ H0 H4) as [s ->]. eexists; reflexivity.
  - destruct (PixOffset_range 1 p sx sy) as [H0 H4]; try assumption; [lia |].
    destruct (index_Some (Pix p) (PixOffset 1 p sx sy)) as [s ->]; [lia |].
    eexists; reflexivity.
  - eexists; reflexivity.
Qed.

(** One iteration: the pixel at [(x, y)] is replaced, every other pixel of
    the destination is left alone, and nothing can go out of range. *)
Lemma drawPixel_spec (op : Op) (src : Image) (sx sy x y : Z) (dst : PixBuf) :
  wf_buf 4 dst -> wf_image src ->
  Point_In (Pt x y) (Rect dst) = true ->
  Point_In (Pt sx sy) (Bounds src) = true ->
  exists dst',
    drawPixel op src sx sy x y dst = Some dst' /\ same_geom dst dst' /\
    forall x' y', Point_In (Pt x' y') (Rect dst) = true ->
      pixelAt dst' x' y' =
        if (x' =? x) && (y' =? y)
        then pixelAt dst x' y' ≫= blendPixel op src sx sy
        else pixelAt dst x' y'.
Proof.
  intros Hwf Hsrc Hin Hsin.
  destruct (PixOffset_range 4 dst x y) as [H0 H4]; try assumption; [lia |].
  destruct (read4_Some (Pix dst) _ H0 H4) as [d Hd].
  destruct (blendPixel_Some op src sx sy d Hsrc Hsin) as [v Hv].
  destruct (write4_Some (Pix dst) _ v H0 H4) as [pix Hpix].
  exists (mkPixBuf pix (Stride dst) (Rect dst)).
  split; [| split].
  - unfold drawPixel. rewrite Hd. cbn. rewrite Hv. cbn. rewrite Hpix. reflexivity.
  - repeat split. cbn. eapply write4_length; eassumption.
  - intros x' y' Hin'. unfold pixelAt at 1. cbn [Pix].
    change (PixOffset 4 (mkPixBuf pix (Stride dst) (Rect dst)) x' y')
      with (PixOffset 4 dst x' y').
    destruct ((x' =? x) && (y' =? y)) eqn:Heq.
    + apply andb_true_iff in Heq. destruct Heq as [Hx Hy].
      apply Z.eqb_eq in Hx. apply Z.eqb_eq in Hy. subst x' y'.
      unfold pixelAt. rewrite Hd. cbn. rewrite Hv.
      eapply read4_write4_same; eassumption.
    + unfold pixelAt. eapply read4_write4_other; [eassumption |].
      apply PixOffset_apart; try assumption.
      intros [= -> ->]. rewrite !Z.eqb_refl in Heq. discriminate.
Qed.

(** ** Loops over pixels *)

Section PixelLoop.
(** Iteration [i] rewrites the pixels [(x, y)] with [coord x y = i] and
    [sel x y], each by [upd x y]. *)
Variable coord : Z -> Z -> Z.
Variable sel : Z -> Z -> bool.
Variable upd : Z -> Z -> Pixel -> option Pixel.
Variable body : Z -> PixBuf -> option PixBuf.
Variable dst0 : PixBuf.

Lemma for_loop_pixels (n : nat) (from : Z) (c : PixBuf) :
  (forall i, from <= i < from + Z.of_nat n ->
   forall c0, same_geom dst0 c0 ->
     exists c', body i c0 = Some c' /\ same_geom dst0 c' /\
       forall x y, Point_In (Pt x y) (Rect dst0) = true ->
         pixelAt c' x y =
           if (coord x y =? i) && sel x y
           then pixelAt c0 x y ≫= upd x y else pixelAt c0 x y) ->
  same_geom dst0 c ->
  exists c', for_loop n from body c = Some c' /\ same_geom dst0 c' /\
    forall x y, Point_In (Pt x y) (Rect dst0) = true ->
      pixelAt c' x y =
        if (from <=? coord x y) && (coord x y <? from + Z.of_nat n) && sel x y
        then pixelAt c x y ≫= upd x y else pixelAt c x y.
Proof.
  revert from c. induction n as [| n IH]; intros from c Hbody Hc.
  - exists c. split; [reflexivity |]. split; [assumption |].
    intros x y _.
    replace ((from <=? coord x y) && (coord x y <? from + Z.of_nat 0)) with false
      by (symmetry; apply andb_false_iff;
          rewrite Z.leb_gt, Z.ltb_ge; lia).
    reflexivity.
  - destruct (Hbody from ltac:(lia) c Hc) as (c1 & Hb1 & Hg1 & Hp1).
    destruct (IH (from + 1) c1) as (c' & Hl & Hg & Hp);
      [intros i Hi; apply Hbody; lia | assumption |].
    exists c'. split; [cbn [for_loop]; rewrite Hb1; exact Hl |].
    split; [assumption |].
    intros x y Hin. rewrite (Hp x y Hin), (Hp1 x y Hin).
    destruct (Z.eq_dec (coord x y) from) as [Heq | Hne].
    + rewrite Heq, Z.eqb_refl.
      replace (from + 1 <=? from) with false by (symmetry; apply Z.leb_gt; lia).
      replace (from <=? from) with true by (symmetry; apply Z.leb_le; lia).
      replace (from <? from + Z.of_nat (S n)) with true
        by (symmetry; apply Z.ltb_lt; lia).
      reflexivity.
    + replace (coord x y =? from) with false by (symmetry; apply Z.eqb_neq; lia).
      replace ((from + 1 <=? coord x y) && (coord x y <? from + 1 + Z.of_nat n))
        with ((from <=? coord x y) && (coord x y <? from + Z.of_nat (S n))).
      * reflexivity.
      * apply eq_true_iff_eq.
        rewrite !andb_true_iff, !Z.leb_le, !Z.ltb_lt. lia.
Qed.
End PixelLoop.

(** ** [Draw] *)

(** [Draw] never goes out of range on well laid out images; it keeps the
    destination's geometry, rewrites the covered pixels and no others. *)
Lemma Draw_spec (dst : PixBuf) (r : Rectangle) (src : Image) (sp : Point) (op : Op) :
  wf_buf 4 dst -> wf_image src ->
  exists dst',
    Draw dst r src sp op = Some dst' /\ same_geom dst dst' /\
    forall x y, Point_In (Pt x y) (Rect dst) = true ->
      pixelAt dst' x y =
        if covered dst r src sp x y
        then pixelAt dst x y
               ≫= blendPixel op src (X (sourcePoint r sp x y)) (Y (sourcePoint r sp x y))
        else pixelAt dst x y.
Proof.
  intros Hwf Hsrc. unfold Draw.
  pose proof (clip_In dst r src sp) as Hcov.
  pose proof (clip_sourcePoint dst r src sp) as Hsp.
  destruct (clip dst r src sp) as [rc spc]. cbn [fst snd] in Hcov, Hsp.
  destruct (Rect_Empty rc) eqn:He.
  - exists dst. split; [reflexivity |]. split; [apply same_geom_refl |].
    intros x y _. rewrite <- Hcov.
    replace (Point_In (Pt x y) rc) with false; [reflexivity |].
    symmetry. apply not_true_is_false. rewrite Point_In_iff. cbn.
    unfold Rect_Empty in He. apply orb_true_iff in He.
    rewrite !Z.leb_le in He. lia.
  - apply Rect_Empty_false in He.
    destruct (for_loop_pixels (fun _ y => y)
                (fun x _ => (X (Min rc) <=? x) && (x <? X (Max rc)))
                (fun x y => blendPixel op src (X (sourcePoint r sp x y))
                              (Y (sourcePoint r sp x y)))
                (fun y =>
                   for_loop (Z.to_nat (Dx rc)) (X (Min rc))
                     (fun x => drawPixel op src (X spc + (x - X (Min rc)))
                                 (Y spc + (y - Y (Min rc))) x y))
                dst (Z.to_nat (Dy rc)) (Y (Min rc)) dst)
      as (dst' & Hrun & Hg & Hp).
    + (* one row *)
      intros j Hj c Hc. unfold Dy in Hj.
      destruct (for_loop_pixels (fun x _ => x) (fun _ y => y =? j)
                  (fun x y => blendPixel op src (X (sourcePoint r sp x y))
                                (Y (sourcePoint r sp x j)))
                  (fun x => drawPixel op src (X spc + (x - X (Min rc)))
                              (Y spc + (j - Y (Min rc))) x j)
                  dst (Z.to_nat (Dx rc)) (X (Min rc)) c)
        as (c' & Hrow & Hg' & Hp').
      * (* one pixel *)
        intros i Hi c0 Hc0. unfold Dx in Hi.
        assert (Hin : covered dst r src sp i j = true).
        { rewrite <- Hcov. apply Point_In_iff. cbn. lia. }
        unfold covered in Hin. apply andb_true_iff in Hin.
        destruct Hin as [Hin Hsin]. apply andb_true_iff in Hin.
        destruct Hin as [_ Hdin].
        destruct Hc0 as (HR & HS & HL).
        destruct (drawPixel_spec op src (X spc + (i - X (Min rc)))
                    (Y spc + (j - Y (Min rc))) i j c0)
          as (c1 & Hd & Hg1 & Hp1).
        -- eapply same_geom_wf; [| exact Hwf]. repeat split; assumption.
        -- assumption.
        -- rewrite HR. assumption.
        -- specialize (Hsp i j). unfold sourcePoint in Hsp at 1.
           cbn [X Y] in Hsp. rewrite Hsp. destruct (sourcePoint r sp i j); assumption.
        -- exists c1. split; [exact Hd |].
           split; [eapply same_geom_trans; [| exact Hg1]; repeat split; assumption |].
           intros x y Hxy. rewrite Hp1 by (rewrite HR; assumption).
           destruct ((x =? i) && (y =? j)) eqn:Hxy'; [| reflexivity].
           apply andb_true_iff in Hxy'. destruct Hxy' as [Hx Hy].
           apply Z.eqb_eq in Hx. apply Z.eqb_eq in Hy. subst x y.
           specialize (Hsp i j). unfold sourcePoint in Hsp at 1.
           cbn [X Y] in Hsp. rewrite <- Hsp. reflexivity.
      * assumption.
      * exists c'. split; [exact Hrow |]. split; [assumption |].
        intros x y Hxy. rewrite (Hp' x y Hxy).
        replace (X (Min rc) + Z.of_nat (Z.to_nat (Dx rc))) with (X (Max rc))
          by (unfold Dx; lia).
        destruct (y =? j) eqn:Hy.
        -- apply Z.eqb_eq in Hy. subst y. rewrite andb_true_r.
           reflexivity.
        -- rewrite !andb_false_r. reflexivity.
    + apply same_geom_refl.
    + exists dst'. split; [exact Hrun |]. split; [assumption |].
      intros x y Hxy. rewrite (Hp x y Hxy), <- Hcov.
      replace (Y (Min rc) + Z.of_nat (Z.to_nat (Dy rc))) with (Y (Max rc))
        by (unfold Dy; lia).
      replace (Point_In (Pt x y) rc)
        with ((Y (Min rc) <=? y) && (y <? Y (Max rc))
              && ((X (Min rc) <=? x) && (x <? X (Max rc)))); [reflexivity |].
      apply eq_true_iff_eq. rewrite Point_In_iff, !andb_true_iff, !Z.leb_le, !Z.ltb_lt.
      cbn. lia.
Qed.

(** ** Blending one pixel *)

Lemma u32_small (x : Z) : 0 <= x < 4294967296 -> u32 x = x.
Proof. intros H. unfold u32. apply Z.mod_small. exact H. Qed.

Lemma u8_small (x : Z) : 0 <= x < 256 -> u8 x = x.
Proof. intros H. unfold u8. apply Z.mod_small. exact H. Qed.

Lemma shiftr8 (x : Z) : Z.shiftr x 8 = x / 256.
Proof. rewrite Z.shiftr_div_pow2 by lia. reflexivity. Qed.

Lemma widened_high_byte (v : Z) : 0 <= v < 256 -> v * 257 / 256 = v.
Proof. intros H. symmetry. apply Z.div_unique with v; lia. Qed.

(** Alpha at its maximum: the destination's share is zero. *)
Lemma over_channel_opaque (d s : Z) :
  0 <= s <= 65535 -> over_channel d 0 s = u8 (Z.shiftr s 8).
Proof.
  intros Hs. unfold over_channel, m16. rewrite Z.mul_0_r.
  change (u32 0 / (2 ^ 16 - 1)) with 0. rewrite Z.add_0_l, u32_small by lia.
  reflexivity.
Qed.

(** Alpha zero: the destination's share is all of it. *)
Lemma over_channel_transparent (d : Z) :
  0 <= d < 256 -> over_channel d 16842495 0 = d.
Proof.
  intros Hd. unfold over_channel, m16. change (2 ^ 16 - 1) with 65535.
  rewrite (u32_small (d * 16842495)) by lia.
  replace (d * 16842495 / 65535) with (d * 257)
    by (apply Z.div_unique with 0; lia).
  rewrite Z.add_0_r, u32_small, shiftr8, widened_high_byte, u8_small by lia.
  reflexivity.
Qed.

Lemma generic_over_channel_opaque (d s : Z) :
  0 <= s <= 65535 -> generic_over_channel d 0 s = u8 (Z.shiftr s 8).
Proof.
  intros Hs. unfold generic_over_channel, m16. change (2 ^ 16 - 1) with 65535.
  rewrite Z.mul_0_r. change (u32 0) with 0.
  rewrite Z.add_0_l, !u32_small by (rewrite ?u32_small; lia).
  rewrite Z.div_mul by lia. reflexivity.
Qed.

Lemma generic_over_channel_transparent (d : Z) :
  0 <= d < 256 -> generic_over_channel d 16842495 0 = d.
Proof.
  intros Hd. unfold generic_over_channel, m16. change (2 ^ 16 - 1) with 65535.
  change (u32 (0 * 65535)) with 0.
  rewrite Z.add_0_r, !u32_small by (rewrite ?u32_small; lia).
  replace (d * 16842495 / 65535) with (d * 257)
    by (apply Z.div_unique with 0; lia).
  rewrite shiftr8, widened_high_byte, u8_small by lia. reflexivity.
Qed.

(** A source pixel of maximal alpha replaces the destination pixel by its own
    colour, as the 8-bit canvas holds it. *)
Lemma blendPixel_opaque (src : Image) (sx sy : Z) (c : Color) (d : Pixel) :
  colorAt src sx sy = Some c -> color_ok c -> cA c = 65535 ->
  blendPixel Over src sx sy d = Some (RGBAModel_Convert c).
Proof.
  intros Hc Hok Ha. destruct src as [p | p | p | b f]; cbn in Hc |- *.
  - destruct (read4 (Pix p) (PixOffset 4 p sx sy)) as [[r g bl a] |];
      [| discriminate].
    injection Hc as <-. cbn in Ha. destruct Hok as (Hr & Hg & Hb & _). cbn in *.
    assert (a = 255) by lia. subst a.
    unfold overRGBA, RGBAModel_Convert, m16. cbn [pR pG pB pA cR cG cB cA].
    change (u32 (u32 (2 ^ 16 - 1 - u32 (255 * 257)) * 257)) with 0.
    rewrite !u32_small by lia.
    rewrite !over_channel_opaque by lia. reflexivity.
  - destruct (read4 (Pix p) (PixOffset 4 p sx sy)) as [[r g bl a] |];
      [| discriminate].
    injection Hc as <-. cbn in Ha. assert (a = 255) by lia. subst a.
    destruct Hok as (Hr & Hg & Hb & _). cbn in *.
    rewrite !Z.div_mul in * by lia.
    unfold overNRGBA, RGBAModel_Convert, m16. cbn [pR pG pB pA cR cG cB cA].
    change (u32 (u32 (2 ^ 16 - 1 - u32 (255 * 257)) * 257)) with 0.
    change (u32 (255 * 257)) with 65535.
    rewrite !u32_small by lia.
    replace (r * 65535 / 255) with (r * 257) by (apply Z.div_unique with 0; lia).
    replace (g * 65535 / 255) with (g * 257) by (apply Z.div_unique with 0; lia).
    replace (bl * 65535 / 255) with (bl * 257) by (apply Z.div_unique with 0; lia).
    rewrite !over_channel_opaque by lia.
    unfold RGBA_of_NRGBA. cbn [pR pG pB pA cR cG cB cA].
    rewrite ?Z.div_mul by lia. reflexivity.
  - destruct (index (Pix p) (PixOffset 1 p sx sy)) as [v |]; [| discriminate].
    injection Hc as <-. destruct Hok as (Hr & _). cbn in *.
    unfold grayPixel, RGBAModel_Convert. cbn [cR cG cB cA].
    rewrite !shiftr8, widened_high_byte, !u8_small by lia. reflexivity.
  - injection Hc as ->. destruct Hok as (Hr & Hg & Hb & _).
    unfold overGeneric, RGBAModel_Convert, m16. rewrite Ha in *.
    change (u32 (u32 (2 ^ 16 - 1 - u32 (65535 * (2 ^ 16 - 1)) / (2 ^ 16 - 1)) * 257))
      with 0.
    rewrite !generic_over_channel_opaque by lia. reflexivity.
Qed.

(** A source pixel of alpha zero leaves the destination pixel as it is. *)
Lemma blendPixel_transparent (src : Image) (sx sy : Z) (c : Color) (d : Pixel) :
  colorAt src sx sy = Some c -> color_ok c -> cA c = 0 -> pixel_ok d ->
  blendPixel Over src sx sy d = Some d.
Proof.
  intros Hc Hok Ha (Hdr & Hdg & Hdb & Hda).
  destruct src as [p | p | p | b f]; cbn in Hc |- *.
  - destruct (read4 (Pix p) (PixOffset 4 p sx sy)) as [[r g bl a] |];
      [| discriminate].
    injection Hc as <-. cbn in Ha. destruct Hok as (Hr & Hg & Hb & _). cbn in *.
    assert (a = 0) by lia. assert (r = 0) by lia. assert (g = 0) by lia.
    assert (bl = 0) by lia. subst.
    unfold overRGBA, m16. cbn [pR pG pB pA].
    change (u32 (0 * 257)) with 0.
    change (u32 (u32 (2 ^ 16 - 1 - 0) * 257)) with 16842495.
    rewrite !over_channel_transparent by lia. destruct d; reflexivity.
  - destruct (read4 (Pix p) (PixOffset 4 p sx sy)) as [[r g bl a] |];
      [| discriminate].
    injection Hc as <-. cbn in Ha. assert (a = 0) by lia. subst a.
    cbn [mbind option_bind].
    unfold overNRGBA, m16. cbn [pR pG pB pA].
    change (u32 (0 * 257)) with 0. rewrite !Z.mul_0_r.
    change (u32 0 / 255) with 0.
    change (u32 (u32 (2 ^ 16 - 1 - 0) * 257)) with 16842495.
    rewrite !over_channel_transparent by lia. destruct d; reflexivity.
  - destruct (index (Pix p) (PixOffset 1 p sx sy)) as [v |]; [| discriminate].
    injection Hc as <-. cbn in Ha. discriminate.
  - injection Hc as ->. destruct Hok as (Hr & Hg & Hb & _).
    assert (cR c = 0) by lia. assert (cG c = 0) by lia. assert (cB c = 0) by lia.
    unfold overGeneric, m16. rewrite Ha, H, H0, H1.
    change (u32 (u32 (2 ^ 16 - 1 - u32 (0 * (2 ^ 16 - 1)) / (2 ^ 16 - 1)) * 257))
      with 16842495.
    rewrite !generic_over_channel_transparent by lia. destruct d; reflexivity.
Qed.

(** An 8-bit value widened to 16 bits is recovered from its high byte. *)
Lemma widened_channel_exact (v : Z) :
  0 <= v <= 65535 -> v mod 257 = 0 -> u8 (Z.shiftr v 8) * 257 = v.
Proof.
  intros Hv Hm. apply Z.mod_divide in Hm; [| lia]. destruct Hm as [k ->].
  rewrite shiftr8, widened_high_byte, u8_small by lia. reflexivity.
Qed.

(** For a colour of 8 bits per channel the conversion to the canvas loses
    nothing. *)
Lemma RGBAModel_Convert_eight_bit (c : Color) :
  color_ok c -> cA c = 65535 -> eight_bit c ->
  RGBA_of_pixel (RGBAModel_Convert c) = c.
Proof.
  intros (Hr & Hg & Hb & _) Ha (Er & Eg & Eb).
  destruct c as [r g b a]. cbn in *. subst a.
  unfold RGBAModel_Convert, RGBA_of_pixel. cbn [pR pG pB pA cR cG cB cA].
  rewrite !widened_channel_exact by (assumption || lia || reflexivity).
  reflexivity.
Qed.

(** The opaque colours of the images of 8 bits per channel that
    [draw.Draw] reads from their buffers are of 8 bits per channel. *)
Lemma colorAt_eight_bit (src : Image) (sx sy : Z) (c : Color) :
  colorAt src sx sy = Some c -> cA c = 65535 ->
  match src with ImageOther _ _ => True | _ => eight_bit c end.
Proof.
  intros Hc Ha. destruct src as [p | p | p | b f]; cbn in Hc; [| | | exact I].
  - destruct (read4 (Pix p) (PixOffset 4 p sx sy)) as [[r g bl a] |];
      [| discriminate].
    injection Hc as <-. unfold eight_bit, RGBA_of_pixel. cbn.
    rewrite !Z.mod_mul by lia. auto.
  - destruct (read4 (Pix p) (PixOffset 4 p sx sy)) as [[r g bl a] |];
      [| discriminate].
    injection Hc as <-. cbn in Ha. assert (a = 255) by lia. subst a.
    unfold eight_bit, RGBA_of_NRGBA. cbn [pR pG pB pA cR cG cB cA].
    rewrite !Z.div_mul by lia. rewrite !Z.mod_mul by lia. auto.
  - destruct (index (Pix p) (PixOffset 1 p sx sy)) as [v |]; [| discriminate].
    injection Hc as <-. unfold eight_bit. cbn.
    rewrite !Z.mod_mul by lia. auto.
Qed.

(** ** The validation of the form *)

(** C6 (the code departs from the claim): a request without content, or
    whose size [Atoi] rejects, is answered with status 400 before any library
    of the pipeline is called; the body is the message encoded as a bare JSON
    string, not an object with an [error] member. *)
Theorem HandleRequest_validation_body (env : Env) (request : Request) :
  FormValue request "content" = EmptyString \/
    snd (Atoi (FormValue request "size")) <> None ->
  exists msg,
    serve env request =
      (Done tt,
       mkWorld [] (mkResponse json_header (Some 400) [ChunkJson (JString msg)]))
    /\ forall m, JString msg <> JObject [("error"%string, m)].
Proof.
  intros H. run.
  destruct (String.eqb (FormValue request "content") EmptyString) eqn:Hc.
  - eexists. split; [reflexivity | discriminate].
  - destruct H as [H | H]; [rewrite H in Hc; discriminate |].
    destruct (Atoi (FormValue request "size")) as [n [e |]]; [| now elim H].
    cbn. eexists. split; [reflexivity | discriminate].
Qed.

Lemma HandleRequest_validation_body_witness :
  exists msg,
    serve stubEnv (form "" "https://twilio.com" (None, Some ErrMissingFile)) =
      (Done tt,
       mkWorld [] (mkResponse json_header (Some 400) [ChunkJson (JString msg)]))
    /\ forall m, JString msg <> JObject [("error"%string, m)].
Proof.
  apply (HandleRequest_validation_body stubEnv).
  right. cbn. discriminate.
Defined.

(** ** The watermark field *)

(** C10: with valid content and size, the plain QR code is produced exactly
    when [FormFile] failed with an error that is [http.ErrMissingFile]; in
    every other case the first thing the handler does is to read the file
    handle, and when [FormFile] failed with another error that handle is nil:
    the read panics with no status and no body written. *)
Theorem HandleRequest_watermark_branch (env : Env) (request : Request)
  (n : Z) (file : option File) (err : option error) :
  FormValue request "content" <> EmptyString ->
  Atoi (FormValue request "size") = (n, None) ->
  FormFile request "watermark" = (file, err) ->
  let content := FormValue request "content" in
  let missing :=
    match err with Some e => errors_Is_ErrMissingFile e | None => false end in
  (missing = true ->
     calls (snd (serve env request)) = [CallQrEncode content n]) /\
  (missing = false ->
     exists rest, calls (snd (serve env request)) = CallIoCopy file :: rest) /\
  (missing = false -> file = None ->
     serve env request =
       (Panic, mkWorld [CallIoCopy None] (mkResponse json_header None []))).
Proof.
  intros Hc Hs Hf content missing. subst content missing.
  run. rewrite (eqb_empty_false _ Hc), Hs, (Atoi_ok_nonempty _ _ Hs), Hf. cbn.
  split; [| split].
  - intros Hm. destruct err as [e |]; [| discriminate]. rewrite Hm. cbn.
    cases; reflexivity.
  - intros Hm.
    replace (negb (is_nil err) &&
               match err with
               | Some e => errors_Is_ErrMissingFile e
               | None => false
               end) with false by (destruct err; [rewrite Hm |]; reflexivity).
    cases; eexists; reflexivity.
  - intros Hm ->.
    replace (negb (is_nil err) &&
               match err with
               | Some e => errors_Is_ErrMissingFile e
               | None => false
               end) with false by (destruct err; [rewrite Hm |]; reflexivity).
    reflexivity.
Qed.

Lemma HandleRequest_watermark_branch_witness :
  serve stubEnv
    (form "256" "x"
       (None, Some (ErrorString "request Content-Type isn't multipart/form-data")))
  = (Panic, mkWorld [CallIoCopy None] (mkResponse json_header None [])).
Proof.
  destruct (HandleRequest_watermark_branch stubEnv
              (form "256" "x"
                 (None,
                  Some (ErrorString "request Content-Type isn't multipart/form-data")))
              256 None
              (Some (ErrorString "request Content-Type isn't multipart/form-data")))
    as (_ & _ & H); [discriminate | reflexivity | reflexivity |].
  apply H; reflexivity.
Defined.

(** C3 (the code departs from the claim): the sniffed content type of the
    upload is computed and then never looked at.  When the upload is not a
    decodable PNG, whatever its sniffed type, the QR code is generated and
    decoded first, the failure comes from decoding the upload inside
    [resizeWatermark], and the response carries that decode error, not the
    not-a-PNG message. *)
Theorem HandleRequest_sniffed_type_unused (env : Env) (request : Request)
  (n : Z) (f : File) (qr : bytes) (base : Image) (e : error) :
  FormValue request "content" <> EmptyString ->
  Atoi (FormValue request "size") = (n, None) ->
  FormFile request "watermark" = (Some f, None) ->
  file_err f = None ->
  qrcode_Encode env (FormValue request "content") Medium n = (qr, None) ->
  png_Decode env qr = (Some base, None) ->
  png_Decode env (file_data f) = (None, Some e) ->
  serve env request =
    (Done tt,
     mkWorld
       [CallIoCopy (Some f); CallDetectContentType (file_data f);
        CallQrEncode (FormValue request "content") n;
        CallPngDecode qr; CallPngDecode (file_data f)]
       (mkResponse json_header (Some 400)
          [ChunkJson
             (JString
                ("Could not generate QR code with the watermark image. "
                 ++ "could not add watermark to QR code: "
                 ++ "Could not resize the watermark image."
                 ++ "%!(EXTRA *errors.errorString="
                 ++ "could not decode watermark image: " ++ Error e ++ ")"))])).
Proof.
  intros Hc Hs Hf Hfe Hq Hb Hw. run.
  rewrite (eqb_empty_false _ Hc), Hs, (Atoi_ok_nonempty _ _ Hs), Hf. cbn.
  rewrite Hfe. cbn. rewrite Hq. cbn. rewrite Hb. cbn. rewrite Hw. cbn.
  reflexivity.
Qed.

Lemma HandleRequest_sniffed_type_unused_witness :
  http_DetectContentType stubEnv jpeg_blob = "image/jpeg"%string /\
  exists msg,
    serve stubEnv (form "256" "https://twilio.com" (Some (mkFile jpeg_blob None), None)) =
      (Done tt,
       mkWorld
         [CallIoCopy (Some (mkFile jpeg_blob None));
          CallDetectContentType jpeg_blob;
          CallQrEncode "https://twilio.com" 256;
          CallPngDecode [137; 256; 256]; CallPngDecode jpeg_blob]
         (mkResponse json_header (Some 400) [ChunkJson (JString msg)])).
Proof.
  split; [reflexivity |]. eexists.
  apply (HandleRequest_sniffed_type_unused stubEnv
           (form "256" "https://twilio.com" (Some (mkFile jpeg_blob None), None))
           256 (mkFile jpeg_blob None) [137; 256; 256] (stub_image 256 256)
           (ErrorString "png: invalid format: not a PNG file"));
    try reflexivity.
  discriminate.
Defined.

(** ** The compositor's failure on an undecodable base *)

(** C5: when the base bytes do not decode, [addWatermark] returns no bytes
    and an error that names the QR code; the decoding of the base is the only
    library call it has made, so the overlay was never decoded, and the
    response is untouched. *)
Theorem addWatermark_base_decode_error (env : Env) (code : SimpleQRCode)
  (qrCode watermarkData : bytes) (img : option Image) (e : error) (w : World) :
  png_Decode env qrCode = (img, Some e) ->
  addWatermark env code qrCode watermarkData w =
    (Done ([], Some (Errorf "could not decode QR code: " e)),
     mkWorld (calls w ++ [CallPngDecode qrCode]) (resp w)).
Proof.
  intros H. run. rewrite H. reflexivity.
Qed.

Lemma addWatermark_base_decode_error_witness :
  addWatermark stubEnv (mkSimpleQRCode "x" 256) [137; 1] [137; 100; 100]
    (mkWorld [] empty_response) =
    (Done ([], Some (ErrorString
                       "could not decode QR code: png: invalid format: not a PNG file")),
     mkWorld [CallPngDecode [137; 1]] empty_response).
Proof.
  apply (addWatermark_base_decode_error stubEnv (mkSimpleQRCode "x" 256)
           [137; 1] [137; 100; 100] None
           (ErrorString "png: invalid format: not a PNG file")).
  reflexivity.
Defined.

(** ** The resampler at width zero *)

(** C7, as stated, fails: on a decodable source [resizeWatermark] with width
    0 returns bytes and a nil error. *)
Lemma resizeWatermark_zero_width_returns :
  ~ (forall (env : Env) (watermark : bytes) (w : World),
       exists out e w',
         resizeWatermark env watermark 0 w = (Done (out, Some e), w')).
Proof.
  intros H.
  destruct (H stubEnv [137; 100; 100] (mkWorld [] empty_response))
    as (out & e & w' & Hrun).
  cbv in Hrun. discriminate.
Qed.

(** C7, amended: with width 0 [resizeWatermark] signals an error exactly when
    the source bytes do not decode; a decoded source goes through
    [resize.Resize(0, 0, ...)], which hands back the source image itself
    (for any size PNG can hold), and its encoding is returned with a nil
    error. *)
Theorem resizeWatermark_zero_width (env : Env) (watermark : bytes) (w : World) :
  match png_Decode env watermark with
  | (_, Some e) =>
      resizeWatermark env watermark 0 w =
        (Done ([], Some (Errorf "could not decode watermark image: " e)),
         mkWorld (calls w ++ [CallPngDecode watermark]) (resp w))
  | (Some img, None) =>
      let m := resize_Resize (resample env) 0 0 img Lanczos3 in
      resizeWatermark env watermark 0 w =
        (Done (png_Encode env m, None),
         mkWorld
           (calls w ++ [CallPngDecode watermark; CallResize 0 0 img; CallPngEncode m])
           (resp w)) /\
      (0 <= Dx (Bounds img) < 2 ^ 32 -> 0 <= Dy (Bounds img) < 2 ^ 32 -> m = img)
  | (None, None) => True
  end.
Proof.
  run. destruct (png_Decode env watermark) as [[img |] [e |]];
    cbn -[resize_Resize]; rewrite <- ?app_assoc; try reflexivity; try exact I.
  split; [reflexivity |]. intros Hx Hy.
  assert (2 ^ 32 < 2 ^ 51) by (apply Z.pow_lt_mono_r; lia).
  apply resize_Resize_zero; lia.
Qed.

Lemma resizeWatermark_zero_width_witness :
  resizeWatermark stubEnv [137; 100; 100] 0 (mkWorld [] empty_response) =
    (Done ([137; 100; 100], None),
     mkWorld
       [CallPngDecode [137; 100; 100]; CallResize 0 0 (stub_image 100 100);
        CallPngEncode (stub_image 100 100)]
       empty_response).
Proof.
  destruct (resizeWatermark_zero_width stubEnv [137; 100; 100]
              (mkWorld [] empty_response)) as [Hrun Hsame].
  rewrite Hrun.
  rewrite Hsame by (split; [discriminate | reflexivity]).
  reflexivity.
Defined.

(** ** Runs of [addWatermark] *)

(** What a successful run of [addWatermark] has done. *)
Lemma addWatermark_Done_inv (env : Env) (code : SimpleQRCode)
  (qrCode watermarkData out : bytes) (w w' : World) :
  addWatermark env code qrCode watermarkData w = (Done (out, None), w') ->
  exists base source overlay m0 m1 m2,
    let resized :=
      resize_Resize (resample env) (watermarkWidth (Dx (Bounds base))) 0 source
        Lanczos3 in
    let r := Rect_Add (Bounds overlay) (watermarkOffset base overlay) in
    png_Decode env qrCode = (Some base, None) /\
    png_Decode env watermarkData = (Some source, None) /\
    png_Decode env (png_Encode env resized) = (Some overlay, None) /\
    NewRGBA (Bounds base) = Some m0 /\
    Draw m0 (Bounds base) base ZP Src = Some m1 /\
    Draw m1 r overlay ZP Over = Some m2 /\
    out = png_Encode env (ImageRGBA m2) /\
    calls w' =
      calls w ++
        [CallPngDecode qrCode; CallPngDecode watermarkData;
         CallResize (watermarkWidth (Dx (Bounds base))) 0 source;
         CallPngEncode resized; CallPngDecode (png_Encode env resized);
         CallDraw (Bounds base) base Src; CallDraw r overlay Over;
         CallPngEncode (ImageRGBA m2)].
Proof.
  run.
  destruct (png_Decode env qrCode) as [[base |] [e |]] eqn:Hb;
    cbn -[Draw NewRGBA watermarkWidth watermarkOffset resize_Resize String.append];
    try discriminate.
  destruct (png_Decode env watermarkData) as [[source |] [e |]] eqn:Hs;
    cbn -[Draw NewRGBA watermarkWidth watermarkOffset resize_Resize String.append];
    try discriminate.
  destruct (png_Decode env (png_Encode env _)) as [[overlay |] [e |]] eqn:Ho;
    cbn -[Draw NewRGBA watermarkWidth watermarkOffset resize_Resize String.append];
    try discriminate.
  destruct (NewRGBA (Bounds base)) as [m0 |] eqn:Hn;
    cbn -[Draw NewRGBA watermarkWidth watermarkOffset resize_Resize String.append];
    try discriminate.
  destruct (Draw m0 (Bounds base) base ZP Src) as [m1 |] eqn:Hd1;
    cbn -[Draw NewRGBA watermarkWidth watermarkOffset resize_Resize String.append];
    try discriminate.
  destruct (Draw m1 _ overlay ZP Over) as [m2 |] eqn:Hd2;
    cbn -[Draw NewRGBA watermarkWidth watermarkOffset resize_Resize String.append];
    try discriminate.
  intros H. injection H as <- <-.
  exists base, source, overlay, m0, m1, m2. cbn zeta.
  repeat (split; [assumption || reflexivity |]).
  cbn [calls]. rewrite <- !app_assoc. reflexivity.
Qed.

(** ** The canvas of [addWatermark] *)

Lemma for_loop_invariant {S : Type} (P : S -> Prop) (body : Z -> S -> option S)
  (n : nat) (from : Z) (s s' : S) :
  (forall i a a', body i a = Some a' -> P a -> P a') ->
  for_loop n from body s = Some s' -> P s -> P s'.
Proof.
  intros Hbody. revert from s. induction n as [| n IH]; intros from s; cbn.
  - intros [= <-]. auto.
  - destruct (body from s) as [s1 |] eqn:Hb; [| discriminate].
    intros Hl Hs. eapply IH; [exact Hl |]. eapply Hbody; eassumption.
Qed.

(** Whenever [Draw] returns, the destination has kept its geometry. *)
Lemma Draw_same_geom (dst : PixBuf) (r : Rectangle) (src : Image) (sp : Point)
  (op : Op) (dst' : PixBuf) :
  Draw dst r src sp op = Some dst' -> same_geom dst dst'.
Proof.
  unfold Draw. destruct (clip dst r src sp) as [rc spc].
  destruct (Rect_Empty rc); [intros [= <-]; apply same_geom_refl |].
  intros H. eapply (for_loop_invariant (same_geom dst)); [| exact H | apply same_geom_refl].
  intros y a a' Ha Hg.
  eapply (for_loop_invariant (same_geom dst)); [| exact Ha | exact Hg].
  intros x c c' Hc Hgc. unfold drawPixel in Hc.
  destruct (read4 (Pix c) _) as [d |]; [| discriminate]. cbn in Hc.
  destruct (blendPixel op src _ _ d) as [v |]; [| discriminate]. cbn in Hc.
  destruct (write4 (Pix c) _ v) as [pix |] eqn:Hw; [| discriminate].
  injection Hc as <-. destruct Hgc as (HR & HS & HL).
  repeat split; cbn; try assumption.
  rewrite (write4_length _ _ _ _ Hw). exact HL.
Qed.

Lemma repeat_lookup (n i : nat) : (i < n)%nat -> repeat 0 n !! i = Some 0.
Proof.
  revert i. induction n as [| n IH]; intros i Hi; [lia |].
  destruct i as [| i]; [reflexivity |]. cbn. apply IH. lia.
Qed.

(** A new canvas is laid out for its rectangle and is transparent black. *)
Lemma NewRGBA_spec (r : Rectangle) (m : PixBuf) :
  NewRGBA r = Some m ->
  wf_buf 4 m /\ Rect m = r /\
  forall x y, Point_In (Pt x y) r = true -> pixelAt m x y = Some (Px 0 0 0 0).
Proof.
  unfold NewRGBA. destruct ((Dx r <? 0) || (Dy r <? 0)) eqn:Hneg; [discriminate |].
  apply orb_false_iff in Hneg. destruct Hneg as [Hx Hy].
  apply Z.ltb_ge in Hx. apply Z.ltb_ge in Hy. intros [= <-].
  assert (Hwf : wf_buf 4 (mkPixBuf (repeat 0 (Z.to_nat (4 * Dx r * Dy r))) (4 * Dx r) r)).
  { unfold wf_buf. cbn. rewrite repeat_length. repeat split; nia. }
  split; [exact Hwf |]. split; [reflexivity |].
  intros x y Hin.
  destruct (PixOffset_range 4 _ x y ltac:(lia) Hwf Hin) as [H0 H4].
  unfold pixelAt. cbn [Pix] in *. rewrite repeat_length in H4.
  set (i := PixOffset 4 _ x y) in *.
  unfold read4, index.
  replace (i <? 0) with false by (symmetry; apply Z.ltb_ge; lia).
  replace (i + 1 <? 0) with false by (symmetry; apply Z.ltb_ge; lia).
  replace (i + 2 <? 0) with false by (symmetry; apply Z.ltb_ge; lia).
  replace (i + 3 <? 0) with false by (symmetry; apply Z.ltb_ge; lia).
  rewrite !repeat_lookup by lia. reflexivity.
Qed.

(** The pixels of the canvas after the two draws of [addWatermark]: the base
    copied, and the overlay blended over it with its corner at [off]. *)
Lemma composite_pixels (base overlay : Image) (m0 m1 m2 : PixBuf) (off : Point) :
  wf_image base -> wf_image overlay ->
  Min (Bounds base) = ZP -> Min (Bounds overlay) = ZP ->
  NewRGBA (Bounds base) = Some m0 ->
  Draw m0 (Bounds base) base ZP Src = Some m1 ->
  Draw m1 (Rect_Add (Bounds overlay) off) overlay ZP Over = Some m2 ->
  forall x y, Point_In (Pt x y) (Bounds base) = true ->
    exists b,
      blendPixel Src base x y (Px 0 0 0 0) = Some b /\
      pixelAt m2 x y =
        if (X off <=? x) && (x <? X off + Dx (Bounds overlay))
           && (Y off <=? y) && (y <? Y off + Dy (Bounds overlay))
        then blendPixel Over overlay (x - X off) (y - Y off) b
        else Some b.
Proof.
  intros Hwb Hwo Hmb Hmo Hn Hd1 Hd2 x y Hin.
  destruct (NewRGBA_spec _ _ Hn) as (Hwf0 & HR0 & Hzero).
  destruct (Draw_spec m0 (Bounds base) base ZP Src Hwf0 Hwb) as (c1 & Hc1 & Hg1 & Hp1).
  rewrite Hd1 in Hc1. injection Hc1 as <-.
  assert (Hwf1 : wf_buf 4 m1) by (eapply same_geom_wf; eassumption).
  destruct (Draw_spec m1 (Rect_Add (Bounds overlay) off) overlay ZP Over Hwf1 Hwo)
    as (c2 & Hc2 & Hg2 & Hp2).
  rewrite Hd2 in Hc2. injection Hc2 as <-.
  assert (HR1 : Rect m1 = Bounds base) by (destruct Hg1 as (-> & _); exact HR0).
  destruct (blendPixel_Some Src base x y (Px 0 0 0 0) Hwb Hin) as [b Hb].
  exists b. split; [exact Hb |].
  assert (Hm1 : pixelAt m1 x y = Some b).
  { rewrite Hp1 by (rewrite HR0; exact Hin). rewrite (Hzero x y Hin).
    assert (Hsp : sourcePoint (Bounds base) ZP x y = Pt x y)
      by (unfold sourcePoint; rewrite Hmb; cbn; f_equal; lia).
    unfold covered. rewrite Hsp, HR0, Hin. cbn. exact Hb. }
  rewrite Hp2 by (rewrite HR1; exact Hin). rewrite Hm1.
  assert (Hsp : sourcePoint (Rect_Add (Bounds overlay) off) ZP x y
                = Pt (x - X off) (y - Y off))
    by (unfold sourcePoint, Rect_Add, Point_Add; rewrite Hmo; cbn; f_equal; lia).
  replace (covered m1 (Rect_Add (Bounds overlay) off) overlay ZP x y)
    with ((X off <=? x) && (x <? X off + Dx (Bounds overlay))
          && (Y off <=? y) && (y <? Y off + Dy (Bounds overlay))).
  - rewrite Hsp. reflexivity.
  - unfold covered. rewrite Hsp, HR1, Hin.
    apply eq_true_iff_eq.
    rewrite !andb_true_iff, !Point_In_iff, !Z.leb_le, !Z.ltb_lt.
    unfold Rect_Add, Point_Add, Dx, Dy. rewrite Hmo. cbn. lia.
Qed.

(** C2: in every successful run of [addWatermark] the output is the encoding
    of a canvas with the base's bounds on which the overlay's corner sits at
    [(W/2 - w/2, W/2 - w/2)], [W] the width of the decoded base, [w] the
    width of the decoded, resized overlay and [/] Go's integer division, both
    coordinates coming from the base's width: that is the top left corner
    of the rectangle drawn into.  For images laid out as the decoder lays
    them out, the canvas pixel at [(x, y)] is the overlay's
    pixel [(x - off, y - off)] blended over the base's pixel where that pixel
    exists, and the base's pixel everywhere else.  For a base 256 wide and
    an overlay 64 wide the overlay's first pixel lands on [(96, 96)]. *)
Theorem addWatermark_placement (env : Env) (code : SimpleQRCode)
  (qrCode watermarkData out : bytes) (w w' : World) :
  addWatermark env code qrCode watermarkData w = (Done (out, None), w') ->
  exists base overlay canvas before,
    let off := Dx (Bounds base) ÷ 2 - Dx (Bounds overlay) ÷ 2 in
    let r := Rect_Add (Bounds overlay) (Pt off off) in
    png_Decode env qrCode = (Some base, None) /\
    out = png_Encode env (ImageRGBA canvas) /\
    calls w' =
      before ++ [CallDraw (Bounds base) base Src; CallDraw r overlay Over;
                 CallPngEncode (ImageRGBA canvas)] /\
    Rect canvas = Bounds base /\
    (Min (Bounds overlay) = ZP -> Min r = Pt off off) /\
    (wf_image base -> wf_image overlay ->
     Min (Bounds base) = ZP -> Min (Bounds overlay) = ZP ->
     (forall x y, Point_In (Pt x y) (Bounds base) = true ->
        exists b,
          blendPixel Src base x y (Px 0 0 0 0) = Some b /\
          pixelAt canvas x y =
            if (off <=? x) && (x <? off + Dx (Bounds overlay))
               && (off <=? y) && (y <? off + Dy (Bounds overlay))
            then blendPixel Over overlay (x - off) (y - off) b
            else Some b) /\
     (Dx (Bounds base) = 256 -> Dx (Bounds overlay) = 64 ->
      96 < Dy (Bounds base) -> 0 < Dy (Bounds overlay) ->
      exists b,
        blendPixel Src base 96 96 (Px 0 0 0 0) = Some b /\
        pixelAt canvas 96 96 = blendPixel Over overlay 0 0 b)).
Proof.
  intros H.
  destruct (addWatermark_Done_inv _ _ _ _ _ _ _ H)
    as (base & source & overlay & m0 & m1 & m2 & Hb & Hs & Ho & Hn & Hd1 & Hd2
        & Hout & Hcalls).
  exists base, overlay, m2. eexists. cbn zeta.
  split; [exact Hb |]. split; [exact Hout |]. split; [| split; [| split]].
  - rewrite Hcalls.
    change (watermarkOffset base overlay)
      with (Pt (Dx (Bounds base) ÷ 2 - Dx (Bounds overlay) ÷ 2)
              (Dx (Bounds base) ÷ 2 - Dx (Bounds overlay) ÷ 2)).
    match goal with
    | |- ?l ++ [?a; ?b; ?c; ?d; ?e; ?f; ?g; ?h] = _ =>
        change (l ++ [a; b; c; d; e; f; g; h])
          with (l ++ [a; b; c; d; e] ++ [f; g; h])
    end.
    rewrite app_assoc. reflexivity.
  - destruct (NewRGBA_spec _ _ Hn) as (_ & HR0 & _).
    destruct (Draw_same_geom _ _ _ _ _ _ Hd1) as (HR1 & _).
    destruct (Draw_same_geom _ _ _ _ _ _ Hd2) as (HR2 & _).
    congruence.
  - intros Hmo. unfold Rect_Add, Point_Add. rewrite Hmo. reflexivity.
  - intros Hwb Hwo Hmb Hmo.
    pose proof (composite_pixels base overlay m0 m1 m2
                  (watermarkOffset base overlay) Hwb Hwo Hmb Hmo Hn Hd1 Hd2) as Hpix.
    change (watermarkOffset base overlay)
      with (Pt (Dx (Bounds base) ÷ 2 - Dx (Bounds overlay) ÷ 2)
              (Dx (Bounds base) ÷ 2 - Dx (Bounds overlay) ÷ 2)) in Hpix.
    cbn [X Y] in Hpix. split; [exact Hpix |].
    intros HW Hw HH Hh.
    assert (Hin : Point_In (Pt 96 96) (Bounds base) = true).
    { apply Point_In_iff. unfold Dx, Dy in *. rewrite Hmb in *. cbn in *. lia. }
    destruct (Hpix 96 96 Hin) as (b & Hb96 & Hp96).
    exists b. split; [exact Hb96 |]. rewrite Hp96, HW, Hw.
    change (256 ÷ 2 - 64 ÷ 2) with 96.
    replace ((96 <=? 96) && (96 <? 96 + 64) && (96 <=? 96)
             && (96 <? 96 + Dy (Bounds overlay))) with true; [reflexivity |].
    symmetry. rewrite !andb_true_iff, !Z.leb_le, !Z.ltb_lt. lia.
Qed.

Lemma addWatermark_placement_witness :
  exists canvas,
    [138; 8; 6; 128] = png_Encode flatEnv (ImageRGBA canvas) /\
    Rect canvas = mkRect (Pt 0 0) (Pt 8 6) /\
    pixelAt canvas 3 2 = Some (Px 128 128 128 255) /\
    pixelAt canvas 3 3 = Some (Px 255 255 255 255) /\
    pixelAt canvas 4 4 = Some (Px 255 255 255 255) /\
    pixelAt canvas 5 5 = Some (Px 128 128 128 255).
Proof.
  destruct (addWatermark_placement flatEnv (mkSimpleQRCode "x" 8)
              [138; 8; 6; 128] [138; 4; 4; 255] [138; 8; 6; 128]
              (mkWorld [] empty_response)
              (snd (addWatermark flatEnv (mkSimpleQRCode "x" 8) [138; 8; 6; 128]
                      [138; 4; 4; 255] (mkWorld [] empty_response))))
    as (base & overlay & canvas & before & Hb & Hout & Hcalls & HR & _ & Hpix).
  - vm_compute. reflexivity.
  - injection Hb as <-.
    apply (f_equal (@rev Call)) in Hcalls.
    rewrite rev_app_distr in Hcalls. cbn [rev app] in Hcalls.
    set (l := rev _) in Hcalls at 1. vm_compute in l. subst l.
    injection Hcalls as _ _ Ho _. subst overlay.
    destruct (Hpix I I eq_refl eq_refl) as [Hall _].
    exists canvas. split; [exact Hout |]. split; [exact HR |].
    repeat split.
    + destruct (Hall 3 2 eq_refl) as (b & Hbp & ->).
      vm_compute in Hbp. injection Hbp as <-. reflexivity.
    + destruct (Hall 3 3 eq_refl) as (b & Hbp & ->).
      vm_compute in Hbp. injection Hbp as <-. reflexivity.
    + destruct (Hall 4 4 eq_refl) as (b & Hbp & ->).
      vm_compute in Hbp. injection Hbp as <-. reflexivity.
    + destruct (Hall 5 5 eq_refl) as (b & Hbp & ->).
      vm_compute in Hbp. injection Hbp as <-. reflexivity.
Defined.

(** ** The overlay's width and the resampler *)

(** C1, as stated, fails: a base 3 pixels wide gives the target width 0, for
    which the overlay is not resized; the 5 pixel wide overlay is drawn as it
    is. *)
Lemma addWatermark_overlay_wider_than_quarter :
  ~ (forall (env : Env) (code : SimpleQRCode) (qrCode watermarkData out : bytes)
            (w w' : World) (base overlay : Image) (r : Rectangle),
       addWatermark env code qrCode watermarkData w = (Done (out, None), w') ->
       png_Decode env qrCode = (Some base, None) ->
       In (CallDraw r overlay Over) (calls w') ->
       4 * Dx (Bounds overlay) <= Dx (Bounds base)).
Proof.
  intros H.
  specialize (H stubEnv (mkSimpleQRCode "x" 3) [137; 3; 3] [137; 5; 5] [137; 3; 3]
                (mkWorld [] empty_response)
                (snd (addWatermark stubEnv (mkSimpleQRCode "x" 3) [137; 3; 3]
                        [137; 5; 5] (mkWorld [] empty_response)))
                (stub_image 3 3) (stub_image 5 5)
                (Rect_Add (Bounds (stub_image 5 5)) (Pt (-1) (-1)))).
  assert (Hrun : addWatermark stubEnv (mkSimpleQRCode "x" 3) [137; 3; 3] [137; 5; 5]
                   (mkWorld [] empty_response)
                 = (Done ([137; 3; 3], None),
                    snd (addWatermark stubEnv (mkSimpleQRCode "x" 3) [137; 3; 3]
                           [137; 5; 5] (mkWorld [] empty_response))))
    by (vm_compute; reflexivity).
  specialize (H Hrun eq_refl).
  assert (Hin : In (CallDraw (Rect_Add (Bounds (stub_image 5 5)) (Pt (-1) (-1)))
                      (stub_image 5 5) Over)
                  (calls (snd (addWatermark stubEnv (mkSimpleQRCode "x" 3)
                                 [137; 3; 3] [137; 5; 5]
                                 (mkWorld [] empty_response))))).
  { vm_compute. do 6 right. left. reflexivity. }
  specialize (H Hin). vm_compute in H. apply H. reflexivity.
Qed.

(** C1, amended: for a decoded base of width [W], [addWatermark] calls the
    resampler with target width [W / 4], the floor of [W * 0.25]; the image
    [m] the resampler returns is the one that is encoded, and decoding that
    encoding yields the overlay that is drawn.  For a base at least 4 pixels
    wide and a non-empty upload, [m] is exactly [W / 4] wide, at most a
    quarter of [W] (256 gives 64), and so is the overlay drawn when the
    codec keeps the width; for a narrower base the target is 0 and [m] is
    the upload itself. *)
Theorem addWatermark_overlay_width (env : Env) (code : SimpleQRCode)
  (qrCode watermarkData : bytes) (base source : Image) (w : World) :
  png_Decode env qrCode = (Some base, None) ->
  png_Decode env watermarkData = (Some source, None) ->
  0 <= Dx (Bounds base) < 2 ^ 53 ->
  let W := Dx (Bounds base) in
  let m := resize_Resize (resample env) (W / 4) 0 source Lanczos3 in
  (exists rest,
     calls (snd (addWatermark env code qrCode watermarkData w)) =
       calls w ++ [CallPngDecode qrCode; CallPngDecode watermarkData;
                   CallResize (W / 4) 0 source; CallPngEncode m;
                   CallPngDecode (png_Encode env m)] ++ rest) /\
  (forall out w',
     addWatermark env code qrCode watermarkData w = (Done (out, None), w') ->
     exists overlay canvas before,
       png_Decode env (png_Encode env m) = (Some overlay, None) /\
       out = png_Encode env (ImageRGBA canvas) /\
       calls w' =
         before ++ [CallDraw (Rect_Add (Bounds overlay) (watermarkOffset base overlay))
                      overlay Over;
                    CallPngEncode (ImageRGBA canvas)] /\
       (Dx (Bounds overlay) = Dx (Bounds m) ->
        4 <= W -> 0 < Dx (Bounds source) -> 0 < Dy (Bounds source) ->
        Dx (Bounds overlay) = W / 4 /\ 4 * Dx (Bounds overlay) <= W)) /\
  (4 <= W -> 0 < Dx (Bounds source) -> 0 < Dy (Bounds source) ->
   Dx (Bounds m) = W / 4 /\ 4 * Dx (Bounds m) <= W) /\
  (W < 4 ->
   0 <= Dx (Bounds source) < 2 ^ 32 -> 0 <= Dy (Bounds source) < 2 ^ 32 ->
   m = source) /\
  watermarkWidth 256 = 64.
Proof.
  intros Hb Hs HW W m.
  assert (Hwidth : 4 <= W -> 0 < Dx (Bounds source) -> 0 < Dy (Bounds source) ->
                   Dx (Bounds m) = W / 4 /\ 4 * Dx (Bounds m) <= W).
  { intros H4 Hx Hy.
    assert (Hm : Dx (Bounds m) = W / 4).
    { apply resize_Resize_width; try assumption.
      - apply resample_Bounds.
      - assert (1 <= W / 4) by (apply Z.div_le_lower_bound; lia). lia. }
    split; [exact Hm |]. rewrite Hm. pose proof (Z.mul_div_le W 4). lia. }
  split; [| split; [| split; [exact Hwidth | split; [| reflexivity]]]].
  - run. rewrite Hb. cbn -[watermarkWidth resize_Resize Draw NewRGBA].
    rewrite Hs. cbn -[watermarkWidth resize_Resize Draw NewRGBA].
    rewrite (watermarkWidth_quarter _ HW). fold W. fold m.
    cases; cbn -[watermarkWidth resize_Resize Draw NewRGBA watermarkOffset];
      rewrite <- ?app_assoc; cbn [app]; eexists; reflexivity.
  - intros out w' Hrun.
    destruct (addWatermark_Done_inv _ _ _ _ _ _ _ Hrun)
      as (base' & source' & overlay & m0 & m1 & m2 & Hb' & Hs' & Ho & Hn & Hd1
          & Hd2 & Hout & Hcalls).
    rewrite Hb in Hb'. injection Hb' as <-.
    rewrite Hs in Hs'. injection Hs' as <-.
    rewrite (watermarkWidth_quarter _ HW) in Ho, Hcalls. fold W in Ho, Hcalls.
    fold m in Ho, Hcalls.
    exists overlay, m2. eexists.
    split; [exact Ho |]. split; [exact Hout |]. split.
    + rewrite Hcalls.
      match goal with
      | |- ?l ++ [?a; ?b; ?c; ?d; ?e; ?f; ?g; ?h] = _ =>
          change (l ++ [a; b; c; d; e; f; g; h])
            with (l ++ [a; b; c; d; e; f] ++ [g; h])
      end.
      rewrite app_assoc. reflexivity.
    + intros Hsame H4 Hx Hy. rewrite Hsame. apply Hwidth; assumption.
  - intros H4 Hx Hy. unfold m.
    replace (W / 4) with 0 by (symmetry; apply Z.div_small; unfold W; lia).
    assert (2 ^ 32 < 2 ^ 51) by (apply Z.pow_lt_mono_r; lia).
    apply resize_Resize_zero; lia.
Qed.

Lemma addWatermark_overlay_width_witness :
  (exists rest,
     calls (snd (addWatermark stubEnv (mkSimpleQRCode "x" 256) [137; 256; 256]
                   [137; 100; 100] (mkWorld [] empty_response))) =
       [CallPngDecode [137; 256; 256]; CallPngDecode [137; 100; 100];
        CallResize 64 0 (stub_image 100 100); CallPngEncode (stub_image 64 64);
        CallPngDecode [137; 64; 64]] ++ rest) /\
  Dx (Bounds (resize_Resize (resample stubEnv) 64 0 (stub_image 100 100) Lanczos3))
    = 64 /\
  (exists canvas before,
     [137; 8; 8] = png_Encode stubEnv (ImageRGBA canvas) /\
     calls (snd (addWatermark stubEnv (mkSimpleQRCode "x" 8) [137; 8; 8]
                   [137; 4; 4] (mkWorld [] empty_response))) =
       before ++ [CallDraw (mkRect (Pt 3 3) (Pt 5 5)) (stub_image 2 2) Over;
                  CallPngEncode (ImageRGBA canvas)]).
Proof.
  destruct (addWatermark_overlay_width stubEnv (mkSimpleQRCode "x" 256)
              [137; 256; 256] [137; 100; 100] (stub_image 256 256)
              (stub_image 100 100) (mkWorld [] empty_response))
    as (H1 & _ & H3 & _);
    [reflexivity | reflexivity | change (0 <= 256 < 2 ^ 53); lia |].
  split; [exact H1 |].
  split; [apply H3; [change (4 <= 256) | change (0 < 100) | change (0 < 100)]; lia |].
  destruct (addWatermark_overlay_width stubEnv (mkSimpleQRCode "x" 8)
              [137; 8; 8] [137; 4; 4] (stub_image 8 8)
              (stub_image 4 4) (mkWorld [] empty_response))
    as (_ & H2 & _);
    [reflexivity | reflexivity | change (0 <= 8 < 2 ^ 53); lia |].
  destruct (H2 [137; 8; 8]
              (snd (addWatermark stubEnv (mkSimpleQRCode "x" 8) [137; 8; 8]
                      [137; 4; 4] (mkWorld [] empty_response))))
    as (overlay & canvas & before & Ho & Hout & Hcalls & _);
    [vm_compute; reflexivity |].
  vm_compute in Ho. injection Ho as <-.
  exists canvas, before. split; [exact Hout | exact Hcalls].
Defined.

(** C9, as stated, fails: a strip 100 wide and 1 high resized to width 10 gets
    the height 0; the encoder writes nothing for it, so the first pass
    returns no bytes and no error, and the second pass fails to decode
    them. *)
Lemma resizeWatermark_strip_not_idempotent :
  ~ (forall (env : Env) (watermark : bytes) (width : Z) (w w1 w' : World)
            (once : bytes),
       resizeWatermark env watermark width w = (Done (once, None), w1) ->
       exists twice w2 img,
         resizeWatermark env once width w' = (Done (twice, None), w2) /\
         png_Decode env once = (Some img, None) /\
         png_Decode env twice = (Some img, None)).
Proof.
  intros H.
  destruct (H flatEnv [138; 100; 1; 255] 10 (mkWorld [] empty_response)
              (snd (resizeWatermark flatEnv [138; 100; 1; 255] 10
                      (mkWorld [] empty_response)))
              (mkWorld [] empty_response) [])
    as (twice & w2 & img & Htwice & _).
  - vm_compute. reflexivity.
  - vm_compute in Htwice. discriminate Htwice.
Qed.

(** C9, amended: the first pass of [resizeWatermark] on a decodable source
    returns the encoding of the resampler's result [m], with no error.  When
    these bytes do not decode, the second pass at the same width returns the
    decoding error; when they decode to an image with the bounds of [m], the
    resampler returns that image as it is, and the second pass returns its
    encoding: resampling again changes no pixel. *)
Theorem resizeWatermark_idempotent (env : Env) (watermark : bytes) (width : Z)
  (source : Image) (w w' : World) :
  0 <= width < 2 ^ 32 ->
  png_Decode env watermark = (Some source, None) ->
  let m := resize_Resize (resample env) width 0 source Lanczos3 in
  Dx (Bounds m) < 2 ^ 32 -> Dy (Bounds m) < 2 ^ 32 ->
  fst (resizeWatermark env watermark width w) = Done (png_Encode env m, None) /\
  match png_Decode env (png_Encode env m) with
  | (_, Some e) =>
      fst (resizeWatermark env (png_Encode env m) width w')
        = Done ([], Some (Errorf "could not decode watermark image: " e))
  | (Some decoded, None) =>
      Bounds decoded = Bounds m ->
      resize_Resize (resample env) width 0 decoded Lanczos3 = decoded /\
      fst (resizeWatermark env (png_Encode env m) width w')
        = Done (png_Encode env decoded, None)
  | (None, None) =>
      fst (resizeWatermark env (png_Encode env m) width w') = Panic
  end.
Proof.
  intros Hw Hs m Hx Hy. split.
  - run. rewrite Hs. reflexivity.
  - destruct (png_Decode env (png_Encode env m)) as [[decoded |] [e |]] eqn:Hd.
    + run. rewrite Hd. reflexivity.
    + intros Hb.
      assert (Hfix : resize_Resize (resample env) width 0 decoded Lanczos3
                     = decoded).
      { assert (2 ^ 32 < 2 ^ 51) by (apply Z.pow_lt_mono_r; lia).
        apply resize_Resize_fixed with (img := source);
          [apply resample_Bounds | lia | exact Hb | rewrite Hb; lia
          | rewrite Hb; lia]. }
      split; [exact Hfix |].
      run. rewrite Hd. cbn -[resize_Resize]. rewrite Hfix. reflexivity.
    + run. rewrite Hd. reflexivity.
    + run. rewrite Hd. reflexivity.
Qed.

Lemma resizeWatermark_idempotent_witness :
  fst (resizeWatermark stubEnv [137; 100; 50] 25 (mkWorld [] empty_response))
    = Done ([137; 25; 13], None) /\
  resize_Resize (resample stubEnv) 25 0 (stub_image 25 13) Lanczos3
    = stub_image 25 13 /\
  fst (resizeWatermark stubEnv [137; 25; 13] 25 (mkWorld [] empty_response))
    = Done ([137; 25; 13], None).
Proof.
  destruct (resizeWatermark_idempotent stubEnv [137; 100; 50] 25
              (stub_image 100 50)
              (mkWorld [] empty_response) (mkWorld [] empty_response))
    as (H1 & H2);
    [lia | reflexivity | vm_compute; reflexivity | vm_compute; reflexivity |].
  split; [exact H1 |].
  change (png_Decode stubEnv
            (png_Encode stubEnv
               (resize_Resize (resample stubEnv) 25 0 (stub_image 100 50) Lanczos3)))
    with (Some (stub_image 25 13), @None error) in H2.
  cbv iota in H2. exact (H2 eq_refl).
Defined.

Lemma colorAt_Some (src : Image) (sx sy : Z) :
  wf_image src -> Point_In (Pt sx sy) (Bounds src) = true ->
  exists c, colorAt src sx sy = Some c.
Proof.
  intros Hwf Hin. destruct src as [p | p | p | b f]; cbn in Hwf, Hin |- *.
  - destruct (PixOffset_range 4 p sx sy) as [H0 H4]; try assumption; [lia |].
    destruct (read4_Some (Pix p) _ H0 H4) as [s ->]. eexists; reflexivity.
  - destruct (PixOffset_range 4 p sx sy) as [H0 H4]; try assumption; [lia |].
    destruct (read4_Some (Pix p) _ H0 H4) as [s ->]. eexists; reflexivity.
  - destruct (PixOffset_range 1 p sx sy) as [H0 H4]; try assumption; [lia |].
    destruct (index_Some (Pix p) (PixOffset 1 p sx sy)) as [s ->]; [lia |].
    eexists; reflexivity.
  - eexists; reflexivity.
Qed.

(** ** Clipping *)

(** C8: whatever rectangle the overlay is drawn into, and however far it
    reaches beyond the canvas, [draw.Draw] indexes no buffer out of range:
    it returns a canvas of the same geometry, in which the covered pixels (in
    the rectangle, on the canvas, with their source pixel on the overlay) are
    blended from the overlay and all others are the canvas's own. *)
Theorem Draw_clips_to_canvas (canvas : PixBuf) (r : Rectangle) (overlay : Image)
  (sp : Point) (op : Op) :
  wf_buf 4 canvas -> wf_image overlay ->
  exists canvas',
    Draw canvas r overlay sp op = Some canvas' /\
    Rect canvas' = Rect canvas /\ Stride canvas' = Stride canvas /\
    length (Pix canvas') = length (Pix canvas) /\
    forall x y, Point_In (Pt x y) (Rect canvas) = true ->
      exists d, pixelAt canvas x y = Some d /\
        if covered canvas r overlay sp x y
        then exists v,
               blendPixel op overlay (X (sourcePoint r sp x y))
                 (Y (sourcePoint r sp x y)) d = Some v /\
               pixelAt canvas' x y = Some v
        else pixelAt canvas' x y = Some d.
Proof.
  intros Hwf Hsrc.
  destruct (Draw_spec canvas r overlay sp op Hwf Hsrc) as (c' & Hd & (HR & HS & HL) & Hp).
  exists c'. repeat (split; [assumption |]).
  intros x y Hin. destruct (pixelAt_Some canvas x y Hwf Hin) as [d Hpix].
  exists d. split; [exact Hpix |]. rewrite (Hp x y Hin), Hpix.
  destruct (covered canvas r overlay sp x y) eqn:Hcov; [| reflexivity].
  unfold covered in Hcov. apply andb_true_iff in Hcov. destruct Hcov as [_ Hs].
  destruct (blendPixel_Some op overlay (X (sourcePoint r sp x y))
              (Y (sourcePoint r sp x y)) d Hsrc) as [v Hv].
  { destruct (sourcePoint r sp x y); exact Hs. }
  exists v. split; [exact Hv | exact Hv].
Qed.

Lemma Draw_clips_to_canvas_witness :
  exists canvas',
    Draw small_canvas (Rect_Add (Bounds (stub_image 3 3)) (Pt 1 1))
      (stub_image 3 3) ZP Over = Some canvas' /\
    length (Pix canvas') = 16%nat /\
    pixelAt canvas' 0 0 = Some (Px 0 0 0 0) /\
    pixelAt canvas' 1 1 = Some (Px 0 0 0 255).
Proof.
  destruct (Draw_clips_to_canvas small_canvas
              (Rect_Add (Bounds (stub_image 3 3)) (Pt 1 1)) (stub_image 3 3) ZP Over)
    as (c' & Hd & _ & _ & Hl & Hp).
  - unfold wf_buf, small_canvas, Dx, Dy. cbn. lia.
  - exact I.
  - exists c'. split; [exact Hd |]. split; [exact Hl |]. split.
    + destruct (Hp 0 0 eq_refl) as (d & Hd0 & H0).
      vm_compute in Hd0. injection Hd0 as <-. exact H0.
    + destruct (Hp 1 1 eq_refl) as (d & Hd1 & H1).
      vm_compute in Hd1. injection Hd1 as <-.
      destruct H1 as (v & Hv & H1). vm_compute in Hv. injection Hv as <-. exact H1.
Defined.

(** ** Opaque and transparent overlay pixels *)

(** C4, as stated, fails: an opaque overlay pixel of 16 bits per channel does
    not land on the canvas with exactly its colour. *)
Lemma Draw_Over_opaque_deep_color :
  ~ (forall (canvas : PixBuf) (r : Rectangle) (overlay : Image) (sp : Point)
            (canvas' : PixBuf) (x y : Z) (c : Color) (d' : Pixel),
       wf_buf 4 canvas -> wf_image overlay ->
       Draw canvas r overlay sp Over = Some canvas' ->
       covered canvas r overlay sp x y = true ->
       colorAt overlay (X (sourcePoint r sp x y)) (Y (sourcePoint r sp x y)) = Some c ->
       color_ok c -> cA c = 65535 ->
       pixelAt canvas' x y = Some d' ->
       RGBA_of_pixel d' = c).
Proof.
  intros H.
  specialize (H gray_canvas (Bounds deep_overlay) deep_overlay ZP
                (mkPixBuf [18; 0; 0; 255] 4 (mkRect (Pt 0 0) (Pt 1 1))) 0 0
                (Col 4660 0 0 65535) (Px 18 0 0 255)).
  assert (Hwf : wf_buf 4 gray_canvas)
    by (unfold wf_buf, gray_canvas, Dx, Dy; cbn; lia).
  assert (Hok : color_ok (Col 4660 0 0 65535)) by (unfold color_ok; cbn; lia).
  specialize (H Hwf I eq_refl eq_refl eq_refl Hok eq_refl eq_refl).
  discriminate H.
Qed.

(** C4, amended: where the overlay covers the canvas, an overlay pixel of
    maximal alpha puts its own colour on the canvas at the canvas's 8 bits
    per channel (each channel's high byte), which is exactly its colour
    whenever that colour has 8 bits per channel, as all colours read from
    the buffers of RGBA, NRGBA and gray overlays have; an overlay pixel of
    alpha zero leaves the canvas pixel byte for byte as it was. *)
Theorem Draw_Over_opaque_transparent (canvas : PixBuf) (r : Rectangle)
  (overlay : Image) (sp : Point) (canvas' : PixBuf) (x y : Z) :
  wf_buf 4 canvas -> wf_image overlay ->
  Draw canvas r overlay sp Over = Some canvas' ->
  covered canvas r overlay sp x y = true ->
  exists c d,
    colorAt overlay (X (sourcePoint r sp x y)) (Y (sourcePoint r sp x y)) = Some c /\
    pixelAt canvas x y = Some d /\
    (color_ok c -> cA c = 65535 ->
       pixelAt canvas' x y = Some (RGBAModel_Convert c) /\
       (eight_bit c -> RGBA_of_pixel (RGBAModel_Convert c) = c) /\
       match overlay with ImageOther _ _ => True | _ => eight_bit c end) /\
    (color_ok c -> pixel_ok d -> cA c = 0 -> pixelAt canvas' x y = Some d).
Proof.
  intros Hwf Hsrc Hdraw Hcov.
  destruct (Draw_spec canvas r overlay sp Over Hwf Hsrc) as (c' & Hd & _ & Hp).
  rewrite Hdraw in Hd. injection Hd as <-.
  assert (Hparts := Hcov). unfold covered in Hparts.
  apply andb_true_iff in Hparts. destruct Hparts as [Hparts Hs].
  apply andb_true_iff in Hparts. destruct Hparts as [_ Hin].
  destruct (colorAt_Some overlay (X (sourcePoint r sp x y))
              (Y (sourcePoint r sp x y)) Hsrc) as [c Hc].
  { destruct (sourcePoint r sp x y); exact Hs. }
  destruct (pixelAt_Some canvas x y Hwf Hin) as [d Hpix].
  exists c, d. split; [exact Hc |]. split; [exact Hpix |].
  rewrite (Hp x y Hin), Hcov, Hpix. cbn [mbind option_bind].
  split.
  - intros Hok Ha. split; [| split].
    + apply blendPixel_opaque; assumption.
    + intros H8. apply RGBAModel_Convert_eight_bit; assumption.
    + eapply colorAt_eight_bit; eassumption.
  - intros Hok Hdok Ha. apply blendPixel_transparent with c; assumption.
Qed.

Lemma Draw_Over_opaque_transparent_witness :
  (exists canvas',
     Draw gray_canvas (Bounds palette_overlay) palette_overlay ZP Over
       = Some canvas' /\
     pixelAt canvas' 0 0 = Some (Px 255 0 0 255) /\
     RGBA_of_pixel (Px 255 0 0 255) = Col 65535 0 0 65535) /\
  (exists canvas',
     Draw gray_canvas (Bounds clear_overlay) clear_overlay ZP Over
       = Some canvas' /\
     pixelAt canvas' 0 0 = Some (Px 128 128 128 255)).
Proof.
  assert (Hwf : wf_buf 4 gray_canvas)
    by (unfold wf_buf, gray_canvas, Dx, Dy; cbn; lia).
  split.
  - exists (mkPixBuf [255; 0; 0; 255] 4 (mkRect (Pt 0 0) (Pt 1 1))).
    split; [reflexivity |].
    destruct (Draw_Over_opaque_transparent gray_canvas (Bounds palette_overlay)
                palette_overlay ZP
                (mkPixBuf [255; 0; 0; 255] 4 (mkRect (Pt 0 0) (Pt 1 1))) 0 0
                Hwf I eq_refl eq_refl)
      as (c & d & Hc & _ & Hopaque & _).
    vm_compute in Hc. injection Hc as <-.
    destruct Hopaque as (Hpix & Hexact & _);
      [unfold color_ok; cbn; lia | reflexivity |].
    split; [exact Hpix |].
    apply Hexact. unfold eight_bit. cbn. repeat split; reflexivity.
  - exists (mkPixBuf [128; 128; 128; 255] 4 (mkRect (Pt 0 0) (Pt 1 1))).
    split; [reflexivity |].
    destruct (Draw_Over_opaque_transparent gray_canvas (Bounds clear_overlay)
                clear_overlay ZP
                (mkPixBuf [128; 128; 128; 255] 4 (mkRect (Pt 0 0) (Pt 1 1))) 0 0)
      as (c & d & Hc & Hd & _ & Hclear).
    + exact Hwf.
    + unfold wf_image, wf_buf, clear_overlay, Dx, Dy. cbn. lia.
    + reflexivity.
    + reflexivity.
    + vm_compute in Hc. injection Hc as <-.
      vm_compute in Hd. injection Hd as <-.
      apply Hclear; [unfold color_ok; cbn; lia | unfold pixel_ok; cbn; lia
                    | reflexivity].
Defined.

(** * Further properties of the handler and of the pipeline *)

(** ** The responses of the handler *)

(** The two validation failures and their messages: a request without
    content is told so whatever its size field holds; a request with
    content whose size [Atoi] rejects is told that the size could not be
    determined. *)
Theorem HandleRequest_validation_messages (env : Env) (request : Request) :
  (FormValue request "content" = EmptyString ->
   serve env request =
     (Done tt,
      mkWorld []
        (mkResponse json_header (Some 400)
           [ChunkJson
              (JString "Could not determine the desired QR code content.")]))) /\
  (FormValue request "content" <> EmptyString ->
   snd (Atoi (FormValue request "size")) <> None ->
   serve env request =
     (Done tt,
      mkWorld []
        (mkResponse json_header (Some 400)
           [ChunkJson (JString "Could not determine the desired QR code size.")]))).
Proof.
  split.
  - intros Hc. run. rewrite Hc. reflexivity.
  - intros Hc Hs. run. rewrite (eqb_empty_false _ Hc).
    destruct (Atoi (FormValue request "size")) as [n [e |]]; [| now elim Hs].
    reflexivity.
Qed.

Lemma HandleRequest_validation_messages_witness :
  serve stubEnv (form "12a" "x" (None, Some ErrMissingFile)) =
    (Done tt,
     mkWorld []
       (mkResponse json_header (Some 400)
          [ChunkJson (JString "Could not determine the desired QR code size.")])).
Proof.
  destruct (HandleRequest_validation_messages stubEnv
              (form "12a" "x" (None, Some ErrMissingFile))) as [_ H].
  apply H; [discriminate | cbn; discriminate].
Defined.

(** Without a watermark file the handler makes one call, to the QR encoder
    with the content and the parsed size.  The encoder's bytes are sent with
    status 200 under a [Content-Type] header that holds both
    [application/json] and [image/png], since the second value is added to
    the first; the encoder's error is reported with status 400. *)
Theorem HandleRequest_without_watermark (env : Env) (request : Request) (n : Z)
  (file : option File) (e : error) :
  FormValue request "content" <> EmptyString ->
  Atoi (FormValue request "size") = (n, None) ->
  FormFile request "watermark" = (file, Some e) ->
  errors_Is_ErrMissingFile e = true ->
  let content := FormValue request "content" in
  calls (snd (serve env request)) = [CallQrEncode content n] /\
  match qrcode_Encode env content Medium n with
  | (data, None) =>
      serve env request =
        (Done tt,
         mkWorld [CallQrEncode content n]
           (mkResponse (content_type ["application/json"%string; "image/png"%string])
              (Some 200) [ChunkBytes data]))
  | (_, Some e') =>
      serve env request =
        (Done tt,
         mkWorld [CallQrEncode content n]
           (mkResponse json_header (Some 400)
              [ChunkJson
                 (JString ("Could not generate QR code. "
                           ++ "could not generate a QR code: " ++ Error e'))]))
  end.
Proof.
  intros Hc Hs Hf He content. subst content. run.
  rewrite (eqb_empty_false _ Hc), Hs, (Atoi_ok_nonempty _ _ Hs), Hf. cbn.
  rewrite He. cbn.
  destruct (qrcode_Encode env (FormValue request "content") Medium n)
    as [data [e' |]]; split; reflexivity.
Qed.

Lemma HandleRequest_without_watermark_witness :
  serve stubEnv (form "256" "https://twilio.com" (None, Some ErrMissingFile)) =
    (Done tt,
     mkWorld [CallQrEncode "https://twilio.com" 256]
       (mkResponse (content_type ["application/json"%string; "image/png"%string])
          (Some 200) [ChunkBytes [137; 256; 256]])).
Proof.
  destruct (HandleRequest_without_watermark stubEnv
              (form "256" "https://twilio.com" (None, Some ErrMissingFile))
              256 None ErrMissingFile) as [_ H];
    [discriminate | reflexivity | reflexivity | reflexivity |].
  exact H.
Defined.

(** A watermark file that cannot be read to its end: the handler answers
    with status 400 and the read error, wrapped by [UploadFile], directly
    after its message (no space between them); no other library is
    called. *)
Theorem HandleRequest_upload_error (env : Env) (request : Request) (n : Z)
  (f : File) (e : error) :
  FormValue request "content" <> EmptyString ->
  Atoi (FormValue request "size") = (n, None) ->
  FormFile request "watermark" = (Some f, None) ->
  file_err f = Some e ->
  serve env request =
    (Done tt,
     mkWorld [CallIoCopy (Some f)]
       (mkResponse json_header (Some 400)
          [ChunkJson
             (JString ("Could not upload the watermark image."
                       ++ "could not upload file. " ++ Error e))])).
Proof.
  intros Hc Hs Hf He. run.
  rewrite (eqb_empty_false _ Hc), Hs, (Atoi_ok_nonempty _ _ Hs), Hf. cbn.
  rewrite He. reflexivity.
Qed.

Lemma HandleRequest_upload_error_witness :
  serve stubEnv
    (form "256" "x"
       (Some (mkFile [137; 80] (Some (ErrorString "unexpected EOF"))), None)) =
    (Done tt,
     mkWorld [CallIoCopy (Some (mkFile [137; 80] (Some (ErrorString "unexpected EOF"))))]
       (mkResponse json_header (Some 400)
          [ChunkJson
             (JString
                "Could not upload the watermark image.could not upload file. unexpected EOF")])).
Proof.
  apply (HandleRequest_upload_error stubEnv
           (form "256" "x"
              (Some (mkFile [137; 80] (Some (ErrorString "unexpected EOF"))), None))
           256 (mkFile [137; 80] (Some (ErrorString "unexpected EOF")))
           (ErrorString "unexpected EOF"));
    [discriminate | reflexivity | reflexivity | reflexivity].
Defined.

(** [GenerateWithWatermark] and its callees leave the response alone. *)
Lemma GenerateWithWatermark_resp (env : Env) (code : SimpleQRCode)
  (watermark : bytes) (w : World) :
  resp (snd (GenerateWithWatermark env code watermark w)) = resp w.
Proof. run. cases; reflexivity. Qed.

(** With a readable watermark file the handler reads it, sniffs it, and
    hands it to [GenerateWithWatermark]; the response depends on that result
    alone.  Its bytes are sent with status 200 and the single content type
    [image/png]; its error is sent with status 400 in a JSON string. *)
Theorem HandleRequest_with_watermark (env : Env) (request : Request)
  (n : Z) (f : File) (err : option error) (data : bytes) (gerr : option error)
  (w2 : World) :
  FormValue request "content" <> EmptyString ->
  Atoi (FormValue request "size") = (n, None) ->
  FormFile request "watermark" = (Some f, err) ->
  match err with Some e' => errors_Is_ErrMissingFile e' | None => false end = false ->
  file_err f = None ->
  GenerateWithWatermark env (mkSimpleQRCode (FormValue request "content") n)
    (file_data f)
    (mkWorld [CallIoCopy (Some f); CallDetectContentType (file_data f)]
       (mkResponse json_header None []))
  = (Done (data, gerr), w2) ->
  serve env request =
    (Done tt,
     mkWorld (calls w2)
       match gerr with
       | None =>
           mkResponse (content_type ["image/png"%string]) (Some 200)
             [ChunkBytes data]
       | Some e =>
           mkResponse json_header (Some 400)
             [ChunkJson
                (JString ("Could not generate QR code with the watermark image. "
                          ++ Error e))]
       end).
Proof.
  intros Hc Hs Hf Hm He Hg.
  pose proof (GenerateWithWatermark_resp env
                (mkSimpleQRCode (FormValue request "content") n) (file_data f)
                (mkWorld [CallIoCopy (Some f); CallDetectContentType (file_data f)]
                   (mkResponse json_header None []))) as Hr.
  rewrite Hg in Hr. cbn in Hr.
  unfold serve, HandleRequest, UploadFile, call_io_Copy, call_DetectContentType,
    json_Encode_string, Write, write_chunk, WriteHeader, Header_Set, modify_resp,
    record, bind, ret.
  cbn -[GenerateWithWatermark String.append].
  rewrite (eqb_empty_false _ Hc), Hs, (Atoi_ok_nonempty _ _ Hs), Hf.
  cbn -[GenerateWithWatermark String.append].
  replace (negb (is_nil err) &&
             match err with
             | Some e' => errors_Is_ErrMissingFile e'
             | None => false
             end) with false by (destruct err; [rewrite Hm |]; reflexivity).
  cbn -[GenerateWithWatermark String.append]. rewrite He.
  cbn -[GenerateWithWatermark String.append].
  change (mkResponse [("Content-Type"%string, ["application/json"%string])] None [])
    with (mkResponse json_header None []).
  rewrite Hg. destruct gerr; cbn; rewrite Hr; reflexivity.
Qed.


Lemma HandleRequest_with_watermark_witness :
  let w1 :=
    mkWorld [CallIoCopy (Some (mkFile [137; 4; 4] None));
             CallDetectContentType [137; 4; 4]]
      (mkResponse json_header None []) in
  let w2 := snd (GenerateWithWatermark stubEnv (mkSimpleQRCode "x" 8) [137; 4; 4] w1) in
  serve stubEnv (form "8" "x" (Some (mkFile [137; 4; 4] None), None)) =
    (Done tt,
     mkWorld (calls w2)
       (mkResponse (content_type ["image/png"%string]) (Some 200)
          [ChunkBytes [137; 8; 8]])).
Proof.
  intros w1 w2.
  apply (HandleRequest_with_watermark stubEnv
           (form "8" "x" (Some (mkFile [137; 4; 4] None), None)) 8
           (mkFile [137; 4; 4] None) None [137; 8; 8] None w2);
    [discriminate | reflexivity | reflexivity | reflexivity | reflexivity |].
  vm_compute. reflexivity.
Defined.

(** Every answer of the handler has one of two shapes: status 400 with one
    JSON string under the JSON content type, or status 200 with the raw bytes
    of an image.  When the handler panics it has written neither a status
    nor a body. *)
Theorem HandleRequest_response_shape (env : Env) (request : Request) :
  match serve env request with
  | (Done _, w) =>
      (exists msg,
         resp w = mkResponse json_header (Some 400) [ChunkJson (JString msg)]) \/
      (exists data values,
         resp w = mkResponse (content_type values) (Some 200) [ChunkBytes data] /\
         In "image/png"%string values)
  | (Panic, w) => status (resp w) = None /\ body (resp w) = []
  end.
Proof.
  run. cases;
    first [ left; eexists; reflexivity
          | right; eexists; eexists; split; [reflexivity | cbn; tauto]
          | split; reflexivity ].
Qed.

(** The QR encoder is only ever called with the content field, which is not
    empty, and with the number [Atoi] read from the size field. *)
Theorem HandleRequest_qr_encode_validated (env : Env) (request : Request)
  (content : string) (n : Z) :
  In (CallQrEncode content n) (calls (snd (serve env request))) ->
  content = FormValue request "content" /\ content <> EmptyString /\
  Atoi (FormValue request "size") = (n, None).
Proof.
  run.
  destruct (String.eqb (FormValue request "content") EmptyString) eqn:Hc;
    [cbn; tauto |].
  assert (Hne : FormValue request "content" <> EmptyString)
    by (intros E; rewrite E in Hc; discriminate).
  destruct (Atoi (FormValue request "size")) as [m [e |]] eqn:Hs; [cbn; tauto |].
  cbn -[Draw NewRGBA watermarkWidth watermarkOffset resize_Resize String.append].
  destruct (String.eqb (FormValue request "size") EmptyString); [cbn; tauto |].
  cases; cbn; intros H;
    repeat match goal with
           | H : _ \/ _ |- _ => destruct H as [H | H]
           | H : False |- _ => contradiction
           | H : CallQrEncode _ _ = CallQrEncode _ _ |- _ =>
               injection H as <- <-
           | H : _ = CallQrEncode _ _ |- _ => discriminate H
           end;
    auto.
Qed.

Lemma HandleRequest_qr_encode_validated_witness :
  "x"%string = FormValue (form "256" "x" (None, Some ErrMissingFile)) "content" /\
  "x"%string <> EmptyString /\
  Atoi (FormValue (form "256" "x" (None, Some ErrMissingFile)) "size")
    = (256, None).
Proof.
  apply (HandleRequest_qr_encode_validated stubEnv
           (form "256" "x" (None, Some ErrMissingFile)) "x" 256).
  cbn. left. reflexivity.
Defined.

(** The handler never sends its not-a-PNG message: the test that guards it
    looks at the error of [UploadFile], which is nil at that point. *)
Theorem HandleRequest_no_png_check (env : Env) (request : Request)
  (err : option error) (contentType : string) :
  ~ In (ChunkJson (JString (not_a_png_message err contentType)))
       (body (resp (snd (serve env request)))).
Proof.
  unfold not_a_png_message. run. cases; cbn; intros H;
    repeat match goal with
           | H : _ \/ _ |- _ => destruct H as [H | H]
           | H : False |- _ => contradiction
           end;
    discriminate H.
Qed.

(** ** Runs that do not panic *)

Lemma checkedEnv_decoder_ok : decoder_ok checkedEnv.
Proof.
  intros data. cbn. unfold checked_decode.
  repeat case_match; simplify_eq; cbn; try exact I.
  unfold Dx, Dy. cbn.
  match goal with
  | H : _ || _ = false |- _ => apply orb_false_iff in H; destruct H
  end.
  repeat split; lia.
Qed.

Lemma addWatermark_total (env : Env) (code : SimpleQRCode)
  (qrCode watermarkData : bytes) (w : World) :
  decoder_ok env ->
  exists res w', addWatermark env code qrCode watermarkData w = (Done res, w').
Proof.
  intros Hok. run.
  pose proof (Hok qrCode) as Hb.
  destruct (png_Decode env qrCode) as [[base |] [e |]];
    cbn -[Draw NewRGBA watermarkWidth watermarkOffset resize_Resize String.append];
    try (eexists; eexists; reflexivity); [| contradiction].
  destruct Hb as (Hwb & Hbx & Hby).
  pose proof (Hok watermarkData) as Hs.
  destruct (png_Decode env watermarkData) as [[source |] [e |]];
    cbn -[Draw NewRGBA watermarkWidth watermarkOffset resize_Resize String.append];
    try (eexists; eexists; reflexivity); [| contradiction].
  match goal with
  | |- context [png_Decode env ?d] => pose proof (Hok d) as Ho;
                                      destruct (png_Decode env d) as [[overlay |] [e |]]
  end;
    cbn -[Draw NewRGBA watermarkWidth watermarkOffset resize_Resize String.append];
    try (eexists; eexists; reflexivity); [| contradiction].
  destruct Ho as (Hwo & _).
  destruct (NewRGBA (Bounds base)) as [m0 |] eqn:Hn.
  - destruct (NewRGBA_spec _ _ Hn) as (Hwf0 & _).
    cbn -[Draw NewRGBA watermarkWidth watermarkOffset resize_Resize String.append].
    destruct (Draw_spec m0 (Bounds base) base ZP Src Hwf0 Hwb)
      as (m1 & -> & Hg1 & _).
    cbn -[Draw NewRGBA watermarkWidth watermarkOffset resize_Resize String.append].
    pose proof (same_geom_wf _ _ _ Hg1 Hwf0) as Hwf1.
    destruct (Draw_spec m1 (Rect_Add (Bounds overlay) (watermarkOffset base overlay))
                overlay ZP Over Hwf1 Hwo) as (m2 & -> & _).
    cbn. eexists; eexists; reflexivity.
  - unfold NewRGBA in Hn.
    replace ((Dx (Bounds base) <? 0) || (Dy (Bounds base) <? 0)) with false in Hn
      by (symmetry; apply orb_false_iff; split; apply Z.ltb_ge; assumption).
    discriminate.
Qed.

(** With a decoder that keeps [png.Decode]'s word, [addWatermark] never
    panics: the canvas can be allocated, and neither of the two draws
    indexes a buffer out of range, whatever the sizes of base and overlay. *)
Theorem addWatermark_never_panics (env : Env) (code : SimpleQRCode)
  (qrCode watermarkData : bytes) (w : World) :
  decoder_ok env ->
  fst (addWatermark env code qrCode watermarkData w) <> Panic.
Proof.
  intros Hok.
  destruct (addWatermark_total env code qrCode watermarkData w Hok)
    as (res & w' & ->).
  discriminate.
Qed.

Lemma addWatermark_never_panics_witness :
  fst (addWatermark checkedEnv (mkSimpleQRCode "x" 8) [137; 8; 8] [137; 20; 20]
         (mkWorld [] empty_response)) <> Panic.
Proof.
  apply addWatermark_never_panics. exact checkedEnv_decoder_ok.
Defined.

Lemma GenerateWithWatermark_returns (env : Env) (code : SimpleQRCode)
  (watermark : bytes) (w : World) :
  decoder_ok env ->
  exists res w', GenerateWithWatermark env code watermark w = (Done res, w').
Proof.
  intros Hok. unfold GenerateWithWatermark, Generate, call_qrcode_Encode, bind,
    record, ret.
  cbn -[addWatermark String.append].
  destruct (qrcode_Encode env (Content code) Medium (Size code)) as [qr [e |]];
    cbn -[addWatermark String.append]; [eexists; eexists; reflexivity |].
  match goal with
  | |- context [addWatermark env code qr watermark ?w0] =>
      destruct (addWatermark_total env code qr watermark w0 Hok)
        as ([out [e |]] & w' & ->)
  end; eexists; eexists; reflexivity.
Qed.

(** The handler's only panic is the read from a nil file handle: with a
    decoder that keeps [png.Decode]'s word, a run panics only if [FormFile]
    returned no file together with an error that is not
    [http.ErrMissingFile] (or with no error at all). *)
Theorem HandleRequest_panics_only_on_nil_file (env : Env) (request : Request) :
  decoder_ok env ->
  fst (serve env request) = Panic ->
  fst (FormFile request "watermark") = None /\
  match snd (FormFile request "watermark") with
  | Some e => errors_Is_ErrMissingFile e
  | None => false
  end = false.
Proof.
  intros Hok. unfold serve, HandleRequest.
  unfold UploadFile, call_io_Copy, call_DetectContentType, json_Encode_string,
    Write, write_chunk, WriteHeader, Header_Set, Header_Add, modify_resp, record,
    Generate, call_qrcode_Encode, bind, ret, panic.
  cbn -[GenerateWithWatermark String.append].
  destruct (String.eqb (FormValue request "content") EmptyString);
    [discriminate |].
  destruct (Atoi (FormValue request "size")) as [n [e |]];
    cbn -[GenerateWithWatermark String.append]; [discriminate |].
  destruct (String.eqb (FormValue request "size") EmptyString);
    [discriminate |].
  destruct (FormFile request "watermark") as [file err].
  cbn -[GenerateWithWatermark String.append].
  destruct (negb (is_nil err) &&
              match err with
              | Some e => errors_Is_ErrMissingFile e
              | None => false
              end) eqn:Hm.
  - destruct (qrcode_Encode env (FormValue request "content") Medium n)
      as [data [e |]]; discriminate.
  - assert (Hmiss : match err with
                    | Some e => errors_Is_ErrMissingFile e
                    | None => false
                    end = false)
      by (destruct err; [exact Hm | reflexivity]).
    destruct file as [f |]; [| intros _; split; [reflexivity | exact Hmiss]].
    cbn -[GenerateWithWatermark String.append].
    destruct (file_err f); cbn -[GenerateWithWatermark String.append];
      [discriminate |].
    match goal with
    | |- context [GenerateWithWatermark env ?c ?d ?w0] =>
        destruct (GenerateWithWatermark_returns env c d w0 Hok)
          as ([out [e |]] & w' & ->)
    end; discriminate.
Qed.

Lemma HandleRequest_panics_only_on_nil_file_witness :
  fst (FormFile
         (form "256" "x"
            (None, Some (ErrorString "request Content-Type isn't multipart/form-data")))
         "watermark") = None.
Proof.
  apply (HandleRequest_panics_only_on_nil_file checkedEnv
           (form "256" "x"
              (None,
               Some (ErrorString "request Content-Type isn't multipart/form-data")))
           checkedEnv_decoder_ok).
  reflexivity.
Defined.

(** ** The placement is centred *)

(** The margins left and right of the overlay differ by one pixel at most,
    and the vertical offset is the horizontal one. *)
Theorem watermarkOffset_centred (base overlay : Image) :
  0 <= Dx (Bounds base) -> 0 <= Dx (Bounds overlay) ->
  let off := watermarkOffset base overlay in
  let left := X off in
  let right := Dx (Bounds base) - (X off + Dx (Bounds overlay)) in
  -1 <= right - left <= 1 /\ Y off = X off.
Proof.
  intros HW Hw. unfold watermarkOffset. cbn.
  rewrite !Z.quot_div_nonneg by lia.
  pose proof (Z.div_mod (Dx (Bounds base)) 2).
  pose proof (Z.mod_pos_bound (Dx (Bounds base)) 2).
  pose proof (Z.div_mod (Dx (Bounds overlay)) 2).
  pose proof (Z.mod_pos_bound (Dx (Bounds overlay)) 2).
  split; [lia | reflexivity].
Qed.

Lemma watermarkOffset_centred_witness :
  -1 <= (9 - (X (watermarkOffset (stub_image 9 9) (stub_image 2 2)) + 2))
        - X (watermarkOffset (stub_image 9 9) (stub_image 2 2)) <= 1.
Proof.
  apply (watermarkOffset_centred (stub_image 9 9) (stub_image 2 2));
    [change (0 <= 9) | change (0 <= 2)]; lia.
Defined.

(** ** Failures inside the pipeline *)

(** When the QR encoder fails, [GenerateWithWatermark] hands its error on,
    wrapped once by [Generate]; the watermark is never decoded. *)
Theorem GenerateWithWatermark_encode_error (env : Env) (code : SimpleQRCode)
  (watermark qr : bytes) (e : error) (w : World) :
  qrcode_Encode env (Content code) Medium (Size code) = (qr, Some e) ->
  GenerateWithWatermark env code watermark w =
    (Done ([], Some (Errorf "could not generate a QR code: " e)),
     mkWorld (calls w ++ [CallQrEncode (Content code) (Size code)]) (resp w)).
Proof.
  intros H. run. rewrite H. reflexivity.
Qed.

Lemma GenerateWithWatermark_encode_error_witness :
  GenerateWithWatermark checkedEnv (mkSimpleQRCode "123456789" 8) [137; 4; 4]
    (mkWorld [] empty_response) =
    (Done ([], Some (ErrorString
                       "could not generate a QR code: content too long to encode")),
     mkWorld [CallQrEncode "123456789" 8] empty_response).
Proof.
  apply (GenerateWithWatermark_encode_error checkedEnv
           (mkSimpleQRCode "123456789" 8) [137; 4; 4] []
           (ErrorString "content too long to encode")
           (mkWorld [] empty_response)).
  reflexivity.
Defined.

(** When the bytes that [resizeWatermark] returned do not decode,
    [addWatermark] returns the decoder's error under its own message and
    draws nothing. *)
Theorem addWatermark_overlay_decode_error (env : Env) (code : SimpleQRCode)
  (qrCode watermarkData : bytes) (base source : Image) (img : option Image)
  (e : error) (w : World) :
  png_Decode env qrCode = (Some base, None) ->
  png_Decode env watermarkData = (Some source, None) ->
  let m := resize_Resize (resample env) (watermarkWidth (Dx (Bounds base))) 0
             source Lanczos3 in
  png_Decode env (png_Encode env m) = (img, Some e) ->
  addWatermark env code qrCode watermarkData w =
    (Done ([], Some (Errorf "could not decode watermark: " e)),
     mkWorld
       (calls w ++
          [CallPngDecode qrCode; CallPngDecode watermarkData;
           CallResize (watermarkWidth (Dx (Bounds base))) 0 source;
           CallPngEncode m; CallPngDecode (png_Encode env m)])
       (resp w)).
Proof.
  intros Hb Hs m Ho. run. rewrite Hb.
  cbn -[Draw NewRGBA watermarkWidth watermarkOffset resize_Resize String.append].
  rewrite Hs.
  cbn -[Draw NewRGBA watermarkWidth watermarkOffset resize_Resize String.append].
  fold m. rewrite Ho.
  cbn -[Draw NewRGBA watermarkWidth watermarkOffset resize_Resize String.append].
  rewrite <- !app_assoc. reflexivity.
Qed.

Lemma addWatermark_overlay_decode_error_witness :
  fst (addWatermark flatEnv (mkSimpleQRCode "x" 40) [138; 40; 40; 128]
         [138; 100; 1; 255] (mkWorld [] empty_response)) =
    Done ([], Some (ErrorString "could not decode watermark: unexpected EOF")).
Proof.
  rewrite (addWatermark_overlay_decode_error flatEnv (mkSimpleQRCode "x" 40)
             [138; 40; 40; 128] [138; 100; 1; 255] (flat_image 40 40 128)
             (flat_image 100 1 255) None (ErrorString "unexpected EOF")
             (mkWorld [] empty_response));
    [reflexivity | reflexivity | reflexivity | vm_compute; reflexivity].
Defined.

(** ** Reading the upload *)

(** [UploadFile] returns the bytes read when the reader ends without error,
    the reader's error under its own message otherwise, and panics on a nil
    handle; in each case its one library call is the copy. *)
Theorem UploadFile_spec (file : option File) (w : World) :
  UploadFile file w =
    (match file with
     | None => Panic
     | Some f =>
         match file_err f with
         | None => Done (file_data f, None)
         | Some e => Done ([], Some (Errorf "could not upload file. " e))
         end
     end,
     mkWorld (calls w ++ [CallIoCopy file]) (resp w)).
Proof.
  run. destruct file as [f |]; [| reflexivity].
  cbn. destruct (file_err f); reflexivity.
Qed.

(** ** The resampling step *)

(** [resizeWatermark] fails only when its input does not decode.  A decoded
    image is resized to the given width with the height left to the
    resampler, and whatever the encoder wrote is returned with a nil error:
    the encoder's own failure is not looked at. *)
Theorem resizeWatermark_spec (env : Env) (watermark : bytes) (width : Z)
  (source : Image) (w : World) :
  png_Decode env watermark = (Some source, None) ->
  let m := resize_Resize (resample env) width 0 source Lanczos3 in
  resizeWatermark env watermark width w =
    (Done (png_Encode env m, None),
     mkWorld
       (calls w ++ [CallPngDecode watermark; CallResize width 0 source;
                    CallPngEncode m])
       (resp w)).
Proof.
  intros Hs m. run. rewrite Hs.
  cbn -[resize_Resize]. rewrite <- !app_assoc. reflexivity.
Qed.

Lemma resizeWatermark_spec_witness :
  resizeWatermark flatEnv [138; 100; 1; 255] 10 (mkWorld [] empty_response) =
    (Done ([], None),
     mkWorld
       [CallPngDecode [138; 100; 1; 255];
        CallResize 10 0 (flat_image 100 1 255);
        CallPngEncode (flat_image 10 0 255)]
       empty_response).
Proof.
  rewrite (resizeWatermark_spec flatEnv [138; 100; 1; 255] 10
             (flat_image 100 1 255) (mkWorld [] empty_response));
    [| reflexivity].
  vm_compute. reflexivity.
Defined.
